(** * Smart Resume Screener: the /analyze request handler

    A shallow embedding of [backend/main.py]: the text extractor
    [parse_resume_file], the scoring client [get_analysis] and the request
    handler [analyze_resumes], with the properties of the written
    specification stated and settled against them.

    Modelling conventions.
    - A Python [str] is a [string]; each character stands for the code point
      of the same number, so the model covers the code points below 256.
    - A Python exception is a value of [exn]; code that may raise returns an
      [outcome].  The handler, which also talks to the database session,
      runs in the state-and-exception monad [M].
    - What the repository delegates to libraries and services (PyPDF2,
      python-docx, the Gemini client, [json.loads], [str(e)], the database
      engine) is collected in the record [Env]; every statement holds for
      all environments.
    - The position [i] of a file in its batch names the calls made for it:
      the service and the database may answer each call differently, and
      the trace of a request records which file each step worked for. *)

From Stdlib Require Import String Ascii ZArith Lia.
From stdpp Require Import base option list gmap strings pretty.

Set Default Proof Using "Type".

(** ** Python strings *)

Module PyStr.

(** [str.isspace] on one character: the white space of the code points
    below 256 is TAB..CR, FS..US, SPACE, NEL and NBSP. *)
Definition isspace (c : ascii) : bool :=
  let n := nat_of_ascii c in
  ((9 <=? n)%nat && (n <=? 13)%nat)
  || ((28 <=? n)%nat && (n <=? 32)%nat)
  || (n =? 133)%nat || (n =? 160)%nat.

(** [s.lstrip()] *)
Fixpoint lstrip (s : string) : string :=
  match s with
  | EmptyString => EmptyString
  | String c s' => if isspace c then lstrip s' else s
  end.

(** [s.rstrip()] *)
Fixpoint rstrip (s : string) : string :=
  match s with
  | EmptyString => EmptyString
  | String c s' =>
      match rstrip s' with
      | EmptyString => if isspace c then EmptyString else String c EmptyString
      | r => String c r
      end
  end.

(** [s.strip()] *)
Definition strip (s : string) : string := rstrip (lstrip s).

(** [s.startswith(p)] *)
Definition startswith (s p : string) : bool := String.prefix p s.

(** [s.endswith(p)] *)
Definition endswith (s p : string) : bool :=
  let n := String.length s in
  let m := String.length p in
  (m <=? n)%nat && String.eqb (String.substring (n - m) m s) p.

(** [s[k:]] for a literal [k >= 0] *)
Definition slice_from (k : nat) (s : string) : string :=
  String.substring k (String.length s - k) s.

(** [s[:-k]] for a literal [k > 0] *)
Definition slice_to_neg (k : nat) (s : string) : string :=
  String.substring 0 (String.length s - k) s.

(** [str.lower] on one character: A..Z and the capital letters of
    Latin-1 (192..222 but the multiplication sign 215) move up by 32. *)
Definition lower_char (c : ascii) : ascii :=
  let n := nat_of_ascii c in
  if ((65 <=? n)%nat && (n <=? 90)%nat)
     || ((192 <=? n)%nat && (n <=? 222)%nat && negb (n =? 215)%nat)
  then ascii_of_nat (n + 32) else c.

(** [s.lower()] *)
Fixpoint lower (s : string) : string :=
  match s with
  | EmptyString => EmptyString
  | String c s' => String (lower_char c) (lower s')
  end.

(** The double quote, for literals that contain one. *)
Definition dquote : string := String (ascii_of_nat 34) EmptyString.

(** The line feed. *)
Definition nl : string := String (ascii_of_nat 10) EmptyString.

End PyStr.

Import PyStr.

(** ** Python values and exceptions *)

(** What [json.loads] can return; a [dict] is a finite map from keys. *)
#[warnings="-register-all"]
Inductive pyval : Type :=
  | PyNone
  | PyBool (b : bool)
  | PyInt (z : Z)
  | PyFloat (literal : string)
  | PyStr (s : string)
  | PyList (l : list pyval)
  | PyDict (d : gmap string pyval).

(** The exceptions the handler meets.  [TypeError] keeps the name of the
    type that was subscripted; [OtherError] is any further subclass of
    [Exception], by class name and message. *)
Inductive exn : Type :=
  | HTTPException (status_code : nat) (detail : string)
  | JSONDecodeError (msg : string)
  | KeyError (key : string)
  | TypeError (type_name : string)
  | OtherError (cls msg : string).

Inductive outcome (A : Type) : Type :=
  | Return (a : A)
  | Raise (e : exn).
Arguments Return {A} a.
Arguments Raise {A} e.

#[global] Instance outcome_ret : MRet outcome := @Return.
#[global] Instance outcome_bind : MBind outcome := fun A B f m =>
  match m with
  | Return a => f a
  | Raise e => Raise e
  end.

(** [try: body except JSONDecodeError as e: h1(e) except Exception as e: h2(e)] *)
Definition try_except2 {A} (body : outcome A)
    (on_json : string -> outcome A) (on_exception : exn -> outcome A) : outcome A :=
  match body with
  | Return a => Return a
  | Raise (JSONDecodeError msg) => on_json msg
  | Raise e => on_exception e
  end.

(** [v[k]] for a string key [k] *)
Definition getitem (v : pyval) (k : string) : outcome pyval :=
  match v with
  | PyDict d =>
      match d !! k with
      | Some x => Return x
      | None => Raise (KeyError k)
      end
  | PyNone => Raise (TypeError "NoneType")
  | PyBool _ => Raise (TypeError "bool")
  | PyInt _ => Raise (TypeError "int")
  | PyFloat _ => Raise (TypeError "float")
  | PyStr _ => Raise (TypeError "str")
  | PyList _ => Raise (TypeError "list")
  end.

(** ** The data model (main.py, lines 57-76) *)

Module ResumeAnalysis.
(** A row of [resume_analyses], and the object the handler builds for
    it.  On the object, [id] and [created_at] are [None] and [score] and
    [justification] are whatever values the handler passes; in the table,
    [id] and [created_at] are filled in by the insert, and [score] and
    [justification] are what the columns, declared [Integer] and [Text]
    (lines 74-75), keep of those values. *)
Record t : Type := {
  id : option Z;
  filename : string;
  job_description : string;
  score : pyval;
  justification : pyval;
  created_at : option Z
}.
End ResumeAnalysis.

(** ** The environment: libraries and services outside the repository *)

(** What [model.generate_content(prompt)] returns: an object whose [text]
    property is a string, [None], or raises. *)
Record GenerateContentResponse : Type := { text : outcome (option string) }.

Module UploadFile.
(** FastAPI's [UploadFile]: the declared name and the bytes that
    [file.file.read()] returns. *)
Record t : Type := { filename : string; content : list Byte.byte }.
End UploadFile.

Record Env : Type := {
  (** [str(e)] *)
  str_exn : exn -> string;
  (** [PyPDF2.PdfReader(io.BytesIO(content)).pages], each page already
      sent through [extract_text()] *)
  pdf_pages : list Byte.byte -> outcome (list string);
  (** [Document(io.BytesIO(content)).paragraphs], each paragraph's [text] *)
  docx_paragraphs : list Byte.byte -> outcome (list string);
  (** [content.decode('utf-8')] *)
  decode_utf8 : list Byte.byte -> outcome string;
  (** [model.generate_content(prompt)] of the call made for the file at
      position [i] of the batch; the service may answer the same prompt
      differently from call to call *)
  generate_content : nat -> string -> outcome GenerateContentResponse;
  (** [json.loads] *)
  json_loads : string -> outcome pyval;
  (** whether [db.commit()] of the row for the file at position [i] raises *)
  commit_error : nat -> option exn;
  (** what the column [score], declared [Integer] (line 74), keeps of a
      value bound to it: an integer as it is, but the text of a numeral
      as that number, a boolean as 0 or 1, an integral float as an
      integer *)
  integer_column : pyval -> pyval;
  (** what the column [justification], declared [Text] (line 75), keeps of
      a value bound to it: a string as it is, but a number as its text *)
  text_column : pyval -> pyval;
  (** the primary key the database gives the next row of the table *)
  next_id : list ResumeAnalysis.t -> Z;
  (** [datetime.utcnow()] at the insert made for position [i] *)
  utcnow : nat -> Z
}.

(** ** Text extractor (main.py, lines 91-134) *)

(** The accumulation loops of lines 116-118 and 124-126: every element
    followed by a line feed, starting from the empty string. *)
Fixpoint join_lines (xs : list string) : string :=
  match xs with
  | [] => EmptyString
  | x :: xs' => x +:+ nl +:+ join_lines xs'
  end.

Definition parse_resume_file (E : Env) (file : UploadFile.t) : outcome string :=
  let content := UploadFile.content file in
  if endswith (UploadFile.filename file) ".pdf" then
    pages ← pdf_pages E content; mret (join_lines pages)
  else if endswith (UploadFile.filename file) ".docx" then
    paragraphs ← docx_paragraphs E content; mret (join_lines paragraphs)
  else if endswith (UploadFile.filename file) ".txt" then
    decode_utf8 E content
  else
    Raise (HTTPException 400 ("Unsupported file type: " +:+ UploadFile.filename file)).

(** ** Scoring client (main.py, lines 136-205) *)

(** The f-string of lines 157-173. *)
Definition build_prompt (resume_text jd_text : string) : string :=
  "You are an expert HR recruitment assistant. Compare the resume text with the job description." +:+ nl
  +:+ nl
  +:+ "You MUST return your answer in a single, minified JSON object. Do not use markdown. The JSON object must have exactly two keys:" +:+ nl
  +:+ "1. " +:+ dquote +:+ "score" +:+ dquote +:+ ": a number from 1 to 10" +:+ nl
  +:+ "2. " +:+ dquote +:+ "justification" +:+ dquote +:+ ": a concise 2-3 sentence justification for the score" +:+ nl
  +:+ nl
  +:+ "Job Description:" +:+ nl
  +:+ "---" +:+ nl
  +:+ jd_text +:+ nl
  +:+ "---" +:+ nl
  +:+ nl
  +:+ "Resume Text:" +:+ nl
  +:+ "---" +:+ nl
  +:+ resume_text +:+ nl
  +:+ "---" +:+ nl
  +:+ nl
  +:+ "JSON Output:".

(** Line 180: [response.text] is falsy ([None] or the empty string), or
    empty once stripped. *)
Definition is_empty_response (t : option string) : bool :=
  match t with
  | None => true
  | Some s => String.eqb s EmptyString || String.eqb (strip s) EmptyString
  end.

(** Lines 184-194: from [response.text] to the argument of [json.loads]. *)
Definition clean_response (response_text : string) : string :=
  let response_text := strip response_text in
  let response_text :=
    if startswith response_text "```json" then slice_from 7 response_text
    else response_text in
  let response_text :=
    if startswith response_text "```" then slice_from 3 response_text
    else response_text in
  let response_text :=
    if endswith response_text "```" then slice_to_neg 3 response_text
    else response_text in
  strip response_text.

(** The body of the [try] once [response] is bound (lines 177-198). *)
Definition parse_response (E : Env) (response : GenerateContentResponse) : outcome pyval :=
  t ← text response;
  if is_empty_response t then
    Raise (HTTPException 500 "Empty response from Gemini API")
  else
    json_loads E (clean_response (default EmptyString t)).

Definition get_analysis (E : Env) (i : nat) (resume_text jd_text : string) : outcome pyval :=
  let prompt := build_prompt resume_text jd_text in
  match generate_content E i prompt with
  | Raise (JSONDecodeError _) =>
      (* line 201 reads [response], which was never assigned *)
      Raise (OtherError "UnboundLocalError" "response")
  | Raise e =>
      Raise (HTTPException 500 ("Error analyzing resume: " +:+ str_exn E e))
  | Return response =>
      try_except2 (parse_response E response)
        (fun msg =>
           (* line 201 evaluates [response.text] once more *)
           _ ← text response;
           Raise (HTTPException 500
                    ("Invalid JSON response from Gemini: " +:+ str_exn E (JSONDecodeError msg))))
        (fun e =>
           Raise (HTTPException 500 ("Error analyzing resume: " +:+ str_exn E e)))
  end.

(** ** The database session and the handler's monad *)

(** What a request does to the outside, in order; [i] is the position in
    the batch of the file the step works for. *)
Inductive event : Type :=
  | EvExtract (i : nat)   (* parse_resume_file(file) *)
  | EvScore (i : nat)     (* get_analysis(resume_text, job_description) *)
  | EvAdd (i : nat)       (* db.add(db_analysis) *)
  | EvCommit (i : nat)    (* db.commit() *)
  | EvRollback            (* db.rollback() *)
  | EvClose.              (* db.close() *)

(** The file an event works for. *)
Definition ev_file (ev : event) : option nat :=
  match ev with
  | EvExtract i | EvScore i | EvAdd i | EvCommit i => Some i
  | EvRollback | EvClose => None
  end.

(** [table]: the committed rows of [resume_analyses], oldest first;
    [session]: the objects added to the open session and not yet committed;
    [trace]: the events so far. *)
Record state : Type := {
  table : list ResumeAnalysis.t;
  session : list ResumeAnalysis.t;
  trace : list event
}.

Definition M (A : Type) : Type := state -> outcome A * state.

#[global] Instance M_ret : MRet M := fun A a st => (Return a, st).
#[global] Instance M_bind : MBind M := fun A B f m st =>
  match m st with
  | (Return a, st') => f a st'
  | (Raise e, st') => (Raise e, st')
  end.

Definition lift {A} (o : outcome A) : M A := fun st => (o, st).

Definition raise {A} (e : exn) : M A := lift (Raise e).

Definition emit (ev : event) : M () := fun st =>
  (Return (), {| table := table st; session := session st; trace := trace st ++ [ev] |}).

(** [try: body except Exception as e: handler(e)] *)
Definition try_except {A} (body : M A) (handler : exn -> M A) : M A := fun st =>
  match body st with
  | (Return a, st') => (Return a, st')
  | (Raise e, st') => handler e st'
  end.

(** [try: body finally: final] *)
Definition try_finally {A} (body : M A) (final : M ()) : M A := fun st =>
  let '(r, st') := body st in
  match final st' with
  | (Return _, st'') => (r, st'')
  | (Raise e, st'') => (Raise e, st'')
  end.

(** [db = SessionLocal()]: a session with nothing pending. *)
Definition SessionLocal : M () := fun st =>
  (Return (), {| table := table st; session := []; trace := trace st |}).

Definition db_add (i : nat) (row : ResumeAnalysis.t) : M () := fun st =>
  (Return (), {| table := table st; session := session st ++ [row];
                 trace := trace st ++ [EvAdd i] |}).

(** The insert of one pending object: the database chooses the key, the
    column default [datetime.utcnow] the time, and each of the two typed
    columns keeps the value bound to it in its own form. *)
Definition insert_row (E : Env) (i : nat) (tbl : list ResumeAnalysis.t)
    (row : ResumeAnalysis.t) : list ResumeAnalysis.t :=
  tbl ++ [ {| ResumeAnalysis.id := Some (next_id E tbl);
              ResumeAnalysis.filename := ResumeAnalysis.filename row;
              ResumeAnalysis.job_description := ResumeAnalysis.job_description row;
              ResumeAnalysis.score := integer_column E (ResumeAnalysis.score row);
              ResumeAnalysis.justification :=
                text_column E (ResumeAnalysis.justification row);
              ResumeAnalysis.created_at := Some (utcnow E i) |} ].

(** [db.commit()]: all pending objects are inserted, or none is. *)
Definition db_commit (E : Env) (i : nat) : M () := fun st =>
  let tr := trace st ++ [EvCommit i] in
  match commit_error E i with
  | Some e => (Raise e, {| table := table st; session := session st; trace := tr |})
  | None =>
      (Return (), {| table := fold_left (insert_row E i) (session st) (table st);
                     session := []; trace := tr |})
  end.

(** [db.rollback()]: pending objects are dropped, committed rows stay. *)
Definition db_rollback : M () := fun st =>
  (Return (), {| table := table st; session := []; trace := trace st ++ [EvRollback] |}).

Definition db_close : M () := fun st =>
  (Return (), {| table := table st; session := []; trace := trace st ++ [EvClose] |}).

(** ** Request handler (main.py, lines 207-297) *)

Module ResultEntry.
(** One element of the [results] list of the response. *)
Record t : Type := { filename : string; score : pyval; justification : pyval }.
End ResultEntry.

(** The JSON bodies the endpoints return. *)
Inductive body : Type :=
  | Results (results : list ResultEntry.t)
  | Message (message : string).

Definition allowed_extensions : list string := [".pdf"; ".docx"; ".txt"].

(** Line 247: [any(file.filename.lower().endswith(ext) for ext in allowed_extensions)] *)
Definition has_allowed_extension (file : UploadFile.t) : bool :=
  existsb (fun ext => endswith (lower (UploadFile.filename file)) ext) allowed_extensions.

(** Lines 246-248: the loop that raises at the first file of another type. *)
Fixpoint check_file_types (files : list UploadFile.t) : outcome () :=
  match files with
  | [] => Return ()
  | file :: rest =>
      if has_allowed_extension file then check_file_types rest
      else Raise (HTTPException 400 ("Unsupported file type: " +:+ UploadFile.filename file))
  end.

(** Lines 258-278: the body of the loop for the file at position [i]. *)
Definition process_file (E : Env) (job_description : string) (i : nat)
    (file : UploadFile.t) : M ResultEntry.t :=
  emit (EvExtract i);;
  resume_text ← lift (parse_resume_file E file);
  emit (EvScore i);;
  analysis ← lift (get_analysis E i resume_text job_description);
  score ← lift (getitem analysis "score");
  justification ← lift (getitem analysis "justification");
  db_add i {| ResumeAnalysis.id := None;
              ResumeAnalysis.filename := UploadFile.filename file;
              ResumeAnalysis.job_description := job_description;
              ResumeAnalysis.score := score;
              ResumeAnalysis.justification := justification;
              ResumeAnalysis.created_at := None |};;
  db_commit E i;;
  score' ← lift (getitem analysis "score");
  justification' ← lift (getitem analysis "justification");
  mret {| ResultEntry.filename := UploadFile.filename file;
          ResultEntry.score := score';
          ResultEntry.justification := justification' |}.

(** Lines 256-278: [for file in files: ...; results.append(...)]. *)
Fixpoint process_files (E : Env) (job_description : string) (i : nat)
    (files : list UploadFile.t) (results : list ResultEntry.t) : M (list ResultEntry.t) :=
  match files with
  | [] => mret results
  | file :: rest =>
      entry ← process_file E job_description i file;
      process_files E job_description (S i) rest (results ++ [entry])
  end.

Definition analyze_resumes (E : Env) (job_description : string)
    (files : list UploadFile.t) : M body :=
  if bool_decide (files = []) then
    raise (HTTPException 400 "No files uploaded")
  else if (10 <? length files)%nat then
    raise (HTTPException 400 "Maximum 10 files allowed")
  else
    lift (check_file_types files);;
    SessionLocal;;
    try_finally
      (try_except
         (results ← process_files E job_description 0 files [];
          mret (Results results))
         (fun e =>
            db_rollback;;
            raise (HTTPException 500 ("Error processing files: " +:+ str_exn E e))))
      db_close.

Definition root : M body :=
  mret (Message "Smart Resume Screener API is running").

(** What the framework sends: the returned value with status 200, an
    [HTTPException] with its own status, any other exception as 500. *)
Definition http_status {A} (r : outcome A) : nat :=
  match r with
  | Return _ => 200
  | Raise (HTTPException status_code _) => status_code
  | Raise _ => 500
  end.

(** ** What happens to one file *)

(** The file at position [i] goes through: it is extracted, scored, both
    keys are found, and the commit does not raise. *)
Definition file_succeeds (E : Env) (jd : string) (i : nat) (f : UploadFile.t)
    (s j : pyval) : Prop :=
  exists resume_text analysis,
    parse_resume_file E f = Return resume_text
    /\ get_analysis E i resume_text jd = Return analysis
    /\ getitem analysis "score" = Return s
    /\ getitem analysis "justification" = Return j
    /\ commit_error E i = None.

(** The file at position [i] stops the loop with exception [e]. *)
Inductive file_fails (E : Env) (jd : string) (i : nat) (f : UploadFile.t) (e : exn) : Prop :=
  | extraction_fails :
      parse_resume_file E f = Raise e -> file_fails E jd i f e
  | scoring_fails resume_text :
      parse_resume_file E f = Return resume_text ->
      get_analysis E i resume_text jd = Raise e -> file_fails E jd i f e
  | lookup_fails resume_text analysis :
      parse_resume_file E f = Return resume_text ->
      get_analysis E i resume_text jd = Return analysis ->
      (getitem analysis "score" = Raise e
       \/ (exists s, getitem analysis "score" = Return s)
          /\ getitem analysis "justification" = Raise e) ->
      file_fails E jd i f e
  | storage_fails resume_text analysis s j :
      parse_resume_file E f = Return resume_text ->
      get_analysis E i resume_text jd = Return analysis ->
      getitem analysis "score" = Return s ->
      getitem analysis "justification" = Return j ->
      commit_error E i = Some e -> file_fails E jd i f e.

(** The loop body for the file at position [i] gets as far as [db.add]. *)
Definition reaches_storage (E : Env) (jd : string) (i : nat) (f : UploadFile.t) : Prop :=
  exists resume_text analysis s j,
    parse_resume_file E f = Return resume_text
    /\ get_analysis E i resume_text jd = Return analysis
    /\ getitem analysis "score" = Return s
    /\ getitem analysis "justification" = Return j.

(** The object the handler adds for a file, lines 264-269. *)
Definition new_row (jd : string) (f : UploadFile.t) (s j : pyval) : ResumeAnalysis.t :=
  {| ResumeAnalysis.id := None;
     ResumeAnalysis.filename := UploadFile.filename f;
     ResumeAnalysis.job_description := jd;
     ResumeAnalysis.score := s;
     ResumeAnalysis.justification := j;
     ResumeAnalysis.created_at := None |}.

(** A stored row carries the data of file [f] scored [s], [j] against
    [jd]: the name and the job description as they are, the score and the
    justification as the [Integer] and the [Text] column keep them. *)
Definition row_of (E : Env) (r : ResumeAnalysis.t) (jd : string) (f : UploadFile.t)
    (s j : pyval) : Prop :=
  ResumeAnalysis.filename r = UploadFile.filename f
  /\ ResumeAnalysis.job_description r = jd
  /\ ResumeAnalysis.score r = integer_column E s
  /\ ResumeAnalysis.justification r = text_column E j.

(** The outcome of the loop body as a value, used to run the loop. *)
Definition file_result (E : Env) (jd : string) (i : nat) (f : UploadFile.t)
    : outcome (pyval * pyval) :=
  resume_text ← parse_resume_file E f;
  analysis ← get_analysis E i resume_text jd;
  s ← getitem analysis "score";
  j ← getitem analysis "justification";
  match commit_error E i with
  | Some e => Raise e
  | None => Return (s, j)
  end.

(** The entry appended to [results] for a file, lines 274-278. *)
Definition entry_of (f : UploadFile.t) (s j : pyval) : ResultEntry.t :=
  {| ResultEntry.filename := UploadFile.filename f;
     ResultEntry.score := s;
     ResultEntry.justification := j |}.

(** The row a successful commit at position [i] writes for file [f]. *)
Definition stored_row (E : Env) (jd : string) (i : nat) (tbl : list ResumeAnalysis.t)
    (f : UploadFile.t) (s j : pyval) : ResumeAnalysis.t :=
  {| ResumeAnalysis.id := Some (next_id E tbl);
     ResumeAnalysis.filename := UploadFile.filename f;
     ResumeAnalysis.job_description := jd;
     ResumeAnalysis.score := integer_column E s;
     ResumeAnalysis.justification := text_column E j;
     ResumeAnalysis.created_at := Some (utcnow E i) |}.

(** The batch passes the three checks of lines 236-248. *)
Definition batch_valid (files : list UploadFile.t) : Prop :=
  files <> [] /\ (length files <= 10)%nat
  /\ Forall (fun f => has_allowed_extension f = true) files.

(** The session the handler opens on the state it is called in. *)
Definition opened (st : state) : state :=
  {| table := table st; session := []; trace := trace st |}.

(** ** The requests of the service *)

Inductive request : Type :=
  | PostAnalyze (job_description : string) (files : list UploadFile.t)
  | GetRoot.

Definition handle (E : Env) (req : request) : M body :=
  match req with
  | PostAnalyze job_description files => analyze_resumes E job_description files
  | GetRoot => root
  end.

(** The service over time: each request is handled in the state the one
    before left, against what the outside world is at that moment. *)
Fixpoint serve (reqs : list (Env * request)) (st : state) : state :=
  match reqs with
  | [] => st
  | (E, req) :: rest => serve rest (snd (handle E req st))
  end.

(** [rows] are the rows of one request: the row at position [n] is that of
    the file at position [n], which went through; a file that failed has
    no row. *)
Definition request_rows (E : Env) (req : request) (rows : list ResumeAnalysis.t) : Prop :=
  match req with
  | GetRoot => rows = []
  | PostAnalyze jd files =>
      (forall n row, rows !! n = Some row ->
         exists f s j, files !! n = Some f /\ file_succeeds E jd n f s j
                       /\ row_of E row jd f s j)
      /\ (forall n f e, files !! n = Some f -> file_fails E jd n f e -> rows !! n = None)
  end.

(** ** The error taxonomy of the specification, as the code raises it *)

(** Line 181. *)
Definition EmptyResponse : exn :=
  HTTPException 500 "Empty response from Gemini API".

(** Line 202, for the parser's exception [JSONDecodeError msg]. *)
Definition InvalidResponseFormat (E : Env) (msg : string) : exn :=
  HTTPException 500 ("Invalid JSON response from Gemini: " +:+ str_exn E (JSONDecodeError msg)).

(** Line 205, for the underlying exception [e]. *)
Definition ScoringFailed (E : Env) (e : exn) : exn :=
  HTTPException 500 ("Error analyzing resume: " +:+ str_exn E e).

(** Line 238. *)
Definition EmptyBatch : exn := HTTPException 400 "No files uploaded".

(** Line 242. *)
Definition BatchTooLarge : exn := HTTPException 400 "Maximum 10 files allowed".

(** Line 289, for the exception [e] that stopped the loop. *)
Definition ProcessingFailed (E : Env) (e : exn) : exn :=
  HTTPException 500 ("Error processing files: " +:+ str_exn E e).

(** Lines 134 and 248. *)
Definition UnsupportedFileType (name : string) : exn :=
  HTTPException 400 ("Unsupported file type: " +:+ name).

(** ** The post-processing as the specification words it *)

(** A string as the list of its characters, and back. *)
Abbreviation chars := list_ascii_of_string.
Abbreviation text_of := string_of_list_ascii.

(** The response text is absent, empty, or white space only. *)
Definition blank (t : option string) : Prop :=
  match t with
  | None => True
  | Some s => Forall (fun c => isspace c = true) (chars s)
  end.

(** [s] without [marker] at its front, when [s] starts with it. *)
Definition without_prefix (marker s : string) : option string :=
  if decide (chars marker `prefix_of` chars s)
  then Some (text_of (drop (length (chars marker)) (chars s)))
  else None.

(** [s] without [marker] at its end, when [s] ends with it. *)
Definition without_suffix (marker s : string) : option string :=
  if decide (chars marker `suffix_of` chars s)
  then Some (text_of (take (length (chars s) - length (chars marker)) (chars s)))
  else None.

(** The 7-character and the 3-character fence markers. *)
Definition fence_json : string := "```json".
Definition fence : string := "```".

(** Section 4.2 of the specification, word for word: trim; fail when
    empty; strip the 7-character marker, ELSE the 3-character one; strip
    the closing marker; trim; parse. *)
Definition post_process_spec (E : Env) (response : option string) : outcome pyval :=
  let trimmed := strip (default EmptyString response) in
  if decide (trimmed = EmptyString) then Raise EmptyResponse
  else
    let unfenced :=
      match without_prefix fence_json trimmed with
      | Some rest => rest
      | None => default trimmed (without_prefix fence trimmed)
      end in
    let unfenced := default unfenced (without_suffix fence unfenced) in
    json_loads E (strip unfenced).

(** The same with the two opening markers tried one after the other, the
    second on what the first left. *)
Definition post_process_sequential (E : Env) (response : option string) : outcome pyval :=
  let trimmed := strip (default EmptyString response) in
  if decide (trimmed = EmptyString) then Raise EmptyResponse
  else
    let unfenced := default trimmed (without_prefix fence_json trimmed) in
    let unfenced := default unfenced (without_prefix fence unfenced) in
    let unfenced := default unfenced (without_suffix fence unfenced) in
    json_loads E (strip unfenced).

(** [name] ends in [ext] when case is ignored: a suffix of [name] equals
    [ext] once both are lower-cased. *)
Definition ends_with_ci (name ext : string) : Prop :=
  exists stem sfx, name = stem +:+ sfx /\ lower sfx = lower ext.

(** The name ends, case ignored, in one of the three extensions. *)
Definition extension_allowed (name : string) : Prop :=
  ends_with_ci name ".pdf" \/ ends_with_ci name ".docx" \/ ends_with_ci name ".txt".

(** The parsed response is not an object, or is one without the key
    [score] or without the key [justification]. *)
Definition lacks_keys (analysis : pyval) : Prop :=
  match analysis with
  | PyDict d => d !! "score" = None \/ d !! "justification" = None
  | _ => True
  end.

(** ** The steps of a request, in order *)

(** The first [n] of the four steps the loop body makes for the file at
    position [i] (lines 258, 261, 270, 271). *)
Definition file_steps (i n : nat) : list event :=
  take n [EvExtract i; EvScore i; EvAdd i; EvCommit i].

(** All four steps for each of the [k] files from position [i] on. *)
Fixpoint batch_steps (i k : nat) : list event :=
  match k with
  | O => []
  | S k' => file_steps i 4 ++ batch_steps (S i) k'
  end.

(** What stands in the prompt between the job description and the resume
    (lines 166-169 of the f-string). *)
Definition prompt_separator : string :=
  nl +:+ "---" +:+ nl +:+ nl +:+ "Resume Text:" +:+ nl +:+ "---" +:+ nl.

(** [a] is a run of consecutive characters of [b]. *)
Definition part_of (a b : string) : Prop :=
  exists pre post, b = pre +:+ a +:+ post.

(** ** A small environment to run the model on *)

Module Demo.

(** [str(e)]: the detail or message alone. *)
Definition render (e : exn) : string :=
  match e with
  | HTTPException _ detail => detail
  | JSONDecodeError msg => msg
  | KeyError key => key
  | TypeError type_name => type_name
  | OtherError _ msg => msg
  end.

(** A parser that knows six texts. *)
Definition loads (s : string) : outcome pyval :=
  if String.eqb s "good" then
    Return (PyDict {[ "score" := PyInt 8; "justification" := PyStr "strong match" ]})
  else if String.eqb s "fair" then
    Return (PyDict {[ "score" := PyInt 5; "justification" := PyStr "partial match" ]})
  else if String.eqb s "odd" then
    Return (PyDict {[ "score" := PyStr "high"; "justification" := PyStr EmptyString ]})
  else if String.eqb s "typed" then
    Return (PyDict {[ "score" := PyStr "8"; "justification" := PyInt 7 ]})
  else if String.eqb s "other" then
    Return (PyDict {[ "rating" := PyInt 8 ]})
  else if String.eqb s "1" then
    Return (PyInt 1)
  else Raise (JSONDecodeError "Expecting value").

(** The number a text of decimal digits writes, from the value [acc] of
    the digits already read. *)
Fixpoint numeral (s : string) (acc : Z) : option Z :=
  match s with
  | EmptyString => Some acc
  | String c s' =>
      let n := nat_of_ascii c in
      if ((48 <=? n)%nat && (n <=? 57)%nat)
      then numeral s' (10 * acc + Z.of_nat (n - 48))%Z
      else None
  end.

(** The [Integer] column on the values the runs below store: a boolean
    is kept as 0 or 1, a text of decimal digits as the number it writes,
    an integer and any other text as they are. *)
Definition integer_affinity (v : pyval) : pyval :=
  match v with
  | PyBool b => PyInt (if b then 1 else 0)
  | PyStr EmptyString => v
  | PyStr s => match numeral s 0 with Some z => PyInt z | None => v end
  | _ => v
  end.

(** The [Text] column on the values the runs below store: an integer is
    kept as its decimal text, a boolean as the text of 0 or 1, a string
    as it is. *)
Definition text_affinity (v : pyval) : pyval :=
  match v with
  | PyInt z => PyStr (pretty z)
  | PyBool b => PyStr (if b then "1" else "0")
  | _ => v
  end.

(** The service answers the call for position [i] with the [i]-th element
    of [answers], every commit but those of the positions in [failing]
    goes through, keys count up from 1 and the clock shows the position. *)
Definition env (answers : list (outcome GenerateContentResponse)) (failing : list nat) : Env :=
  {| str_exn := render;
     pdf_pages := fun _ => Return ["page one"; "page two"];
     docx_paragraphs := fun _ => Return ["paragraph"];
     decode_utf8 := fun content => Return (String.string_of_list_byte content);
     generate_content := fun i _ =>
       default (Raise (OtherError "RuntimeError" "no answer")) (answers !! i);
     json_loads := loads;
     commit_error := fun i =>
       if bool_decide (i ∈ failing) then Some (OtherError "OperationalError" "disk full")
       else None;
     integer_column := integer_affinity;
     text_column := text_affinity;
     next_id := fun tbl => Z.of_nat (S (length tbl));
     utcnow := fun i => Z.of_nat i |}.

(** The service returns a response whose text is [s]. *)
Definition says (s : string) : outcome GenerateContentResponse :=
  Return {| text := Return (Some s) |}.

(** The call to the service raises. *)
Definition unreachable : outcome GenerateContentResponse :=
  Raise (OtherError "ServiceUnavailable" "503").

Definition upload (name : string) : UploadFile.t :=
  {| UploadFile.filename := name; UploadFile.content := [] |}.

(** A state with an empty table. *)
Definition fresh : state := {| table := []; session := []; trace := [] |}.

End Demo.

(** * Properties *)

(** ** Python string operations as list operations *)

Section pystr_facts.
Implicit Types s p : string.

Lemma chars_length s : length (chars s) = String.length s.
Proof. induction s as [|c s IH]; simpl; [done | by rewrite IH]. Qed.

Lemma chars_inj s1 s2 : chars s1 = chars s2 -> s1 = s2.
Proof.
  intros H. rewrite <- (string_of_list_ascii_of_string s1), H.
  apply string_of_list_ascii_of_string.
Qed.

Lemma chars_app s1 s2 : chars (s1 +:+ s2) = chars s1 ++ chars s2.
Proof. induction s1 as [|c s1 IH]; simpl; [done | by rewrite IH]. Qed.

Lemma chars_substring s : forall n m,
  chars (String.substring n m s) = take m (drop n (chars s)).
Proof.
  induction s as [|c s IH]; intros [|n] [|m]; simpl; try done.
  all: by rewrite IH, ?drop_0.
Qed.

Lemma startswith_prefix s p :
  startswith s p = true <-> chars p `prefix_of` chars s.
Proof.
  unfold startswith. revert s.
  induction p as [|a p IH]; intros [|b s]; simpl.
  - split; [intros _; apply prefix_nil | done].
  - split; [intros _; apply prefix_nil | done].
  - split; [done | intros H%prefix_nil_inv; discriminate].
  - destruct (Ascii.ascii_dec a b) as [->|Hne].
    + rewrite IH. split; [apply prefix_cons | apply prefix_cons_inv_2].
    + split; [done | intros H%prefix_cons_inv_1; done].
Qed.

Lemma slice_from_drop k s : chars (slice_from k s) = drop k (chars s).
Proof.
  unfold slice_from. rewrite chars_substring, <- chars_length.
  apply take_ge. rewrite length_drop. lia.
Qed.

Lemma slice_to_neg_take k s :
  chars (slice_to_neg k s) = take (length (chars s) - k) (chars s).
Proof. unfold slice_to_neg. by rewrite chars_substring, drop_0, chars_length. Qed.

Lemma endswith_suffix s p :
  endswith s p = true <-> chars p `suffix_of` chars s.
Proof.
  unfold endswith. rewrite andb_true_iff, Nat.leb_le, String.eqb_eq.
  rewrite <- !chars_length. split.
  - intros [Hle Heq]. apply (f_equal chars) in Heq.
    rewrite chars_substring, take_ge in Heq by (rewrite length_drop; lia).
    exists (take (length (chars s) - length (chars p)) (chars s)).
    transitivity (take (length (chars s) - length (chars p)) (chars s)
                  ++ drop (length (chars s) - length (chars p)) (chars s)).
    + by rewrite take_drop.
    + by rewrite Heq.
  - intros [k Hk]. rewrite Hk, length_app. split; [lia|].
    apply chars_inj. rewrite chars_substring, Hk.
    replace (length k + length (chars p) - length (chars p))%nat with (length k) by lia.
    rewrite drop_app_length. apply take_ge. lia.
Qed.

Lemma lstrip_blank s :
  Forall (fun c => isspace c = true) (chars (lstrip s))
  <-> Forall (fun c => isspace c = true) (chars s).
Proof.
  induction s as [|c s IH]; simpl; [done|].
  destruct (isspace c) eqn:Hc; [|done].
  rewrite IH. split; [by constructor | by inversion 1].
Qed.

Lemma rstrip_empty s :
  rstrip s = EmptyString <-> Forall (fun c => isspace c = true) (chars s).
Proof.
  induction s as [|c s IH]; simpl; [split; [by constructor | done]|].
  destruct (rstrip s) as [|c' r] eqn:Hr.
  - destruct (isspace c) eqn:Hc.
    + split; [intros _; constructor; [done | by apply IH] | done].
    + split; [done | inversion 1; congruence].
  - split; [done|]. inversion 1 as [|? ? _ Hall]. by apply IH in Hall.
Qed.

(** [s.strip()] is empty exactly when [s] is white space only. *)
Lemma strip_empty_iff s :
  strip s = EmptyString <-> Forall (fun c => isspace c = true) (chars s).
Proof. unfold strip. by rewrite rstrip_empty, lstrip_blank. Qed.

End pystr_facts.

(** The operations on the texts the service is known to send. *)
Example strip_both_ends : strip ("  a b " +:+ nl) = "a b".
Proof. reflexivity. Qed.

Example endswith_is_case_sensitive :
  endswith "cv.pdf" ".pdf" = true /\ endswith "CV.PDF" ".pdf" = false
  /\ endswith (lower "CV.PDF") ".pdf" = true /\ endswith "pdf" ".pdf" = false.
Proof. by vm_compute. Qed.

Example clean_response_fenced :
  clean_response ("```json" +:+ nl +:+ "{}" +:+ nl +:+ "```" +:+ nl) = "{}"
  /\ clean_response ("```" +:+ nl +:+ "{}" +:+ nl +:+ "```") = "{}"
  /\ clean_response (" {} ") = "{}".
Proof. by vm_compute. Qed.

Section outcome_facts.
Context {A B : Type}.

Lemma bind_Return (a : A) (f : A -> outcome B) : (Return a ≫= f) = f a.
Proof. reflexivity. Qed.

Lemma bind_Raise (e : exn) (f : A -> outcome B) : (Raise e ≫= f) = Raise e.
Proof. reflexivity. Qed.

Lemma bind_Return_inv (m : outcome A) (f : A -> outcome B) (b : B) :
  (m ≫= f) = Return b -> exists a, m = Return a /\ f a = Return b.
Proof. destruct m as [a|e]; [eauto | discriminate]. Qed.
End outcome_facts.

Section file_result_facts.
Variable E : Env.
Variable jd : string.

Lemma file_result_succeeds i f s j :
  file_result E jd i f = Return (s, j) <-> file_succeeds E jd i f s j.
Proof.
  unfold file_result, file_succeeds. split.
  - intros H.
    apply bind_Return_inv in H as (text & Hp & H).
    apply bind_Return_inv in H as (a & Ha & H).
    apply bind_Return_inv in H as (s' & Hs & H).
    apply bind_Return_inv in H as (j' & Hj & H).
    destruct (commit_error E i) eqn:Hc; [discriminate|].
    injection H as -> ->. eauto 10.
  - intros (text & a & Hp & Ha & Hs & Hj & Hc).
    rewrite Hp, bind_Return, Ha, bind_Return, Hs, bind_Return, Hj, bind_Return, Hc.
    reflexivity.
Qed.

Lemma file_result_fails i f e :
  file_result E jd i f = Raise e <-> file_fails E jd i f e.
Proof.
  unfold file_result. split.
  - destruct (parse_resume_file E f) as [text|e1] eqn:Hp.
    2:{ rewrite bind_Raise. intros [= ->]. by apply extraction_fails. }
    rewrite bind_Return.
    destruct (get_analysis E i text jd) as [a|e2] eqn:Ha.
    2:{ rewrite bind_Raise. intros [= ->]. by eapply scoring_fails. }
    rewrite bind_Return.
    destruct (getitem a "score") as [s|e3] eqn:Hs.
    2:{ rewrite bind_Raise. intros [= ->]. eapply lookup_fails; eauto. }
    rewrite bind_Return.
    destruct (getitem a "justification") as [j|e4] eqn:Hj.
    2:{ rewrite bind_Raise. intros [= ->]. eapply lookup_fails; eauto. }
    rewrite bind_Return.
    destruct (commit_error E i) as [e5|] eqn:Hc; [|discriminate].
    intros [= ->]. by eapply storage_fails.
  - intros [Hp | text Hp Ha | text a Hp Ha Hl | text a s j Hp Ha Hs Hj Hc].
    + by rewrite Hp.
    + by rewrite Hp, bind_Return, Ha.
    + rewrite Hp, bind_Return, Ha, bind_Return.
      destruct Hl as [Hs | [[s Hs] Hj]].
      * by rewrite Hs.
      * by rewrite Hs, bind_Return, Hj.
    + by rewrite Hp, bind_Return, Ha, bind_Return, Hs, bind_Return, Hj, bind_Return, Hc.
Qed.

(** A file cannot both go through and stop the loop. *)
Lemma succeeds_not_fails i f s j e :
  file_succeeds E jd i f s j -> file_fails E jd i f e -> False.
Proof.
  intros Hs%file_result_succeeds Hf%file_result_fails. congruence.
Qed.

Lemma succeeds_or_fails i f :
  (exists s j, file_succeeds E jd i f s j) \/ (exists e, file_fails E jd i f e).
Proof.
  destruct (file_result E jd i f) as [[s j]|e] eqn:H.
  - left. exists s, j. by apply file_result_succeeds.
  - right. exists e. by apply file_result_fails.
Qed.
End file_result_facts.

(** ** Running the loop *)

Section loop.
Variable E : Env.
Variable jd : string.

Lemma stored_row_of i tbl f s j : row_of E (stored_row E jd i tbl f s j) jd f s j.
Proof. by repeat split. Qed.

Lemma process_file_succeeds i f s j st :
  session st = [] ->
  file_succeeds E jd i f s j ->
  process_file E jd i f st =
    (Return (entry_of f s j),
     {| table := table st ++ [stored_row E jd i (table st) f s j];
        session := [];
        trace := trace st ++ [EvExtract i; EvScore i; EvAdd i; EvCommit i] |}).
Proof.
  intros Hsess (text & a & Hp & Ha & Hs & Hj & Hc).
  unfold process_file, mbind, M_bind, emit, lift, db_add, db_commit, mret, M_ret; simpl.
  rewrite Hp, Ha, Hs, Hj, Hc, Hsess; simpl.
  by rewrite <- !app_assoc.
Qed.

Lemma process_file_fails i f e st :
  file_fails E jd i f e ->
  exists pend tr,
    process_file E jd i f st =
      (Raise e, {| table := table st; session := pend;
                   trace := trace st ++ EvExtract i :: tr |})
    /\ Forall (fun ev => ev_file ev = Some i) tr
    /\ (forall ev, ev ∈ tr -> ev = EvAdd i \/ ev = EvCommit i -> reaches_storage E jd i f).
Proof.
  intros Hf.
  unfold process_file, mbind, M_bind, emit, lift, db_add, db_commit, mret, M_ret; simpl.
  assert (forall ev, ev ∈ [EvScore i] -> ev = EvAdd i \/ ev = EvCommit i ->
                     reaches_storage E jd i f) as Hscore.
  { intros ev ->%list_elem_of_singleton [?|?]; discriminate. }
  destruct Hf as [Hp | text Hp Ha | text a Hp Ha Hl | text a s j Hp Ha Hs Hj Hc].
  - rewrite Hp. exists (session st), []. split; [done|]. split; [done|].
    intros ev Hin. by apply elem_of_nil in Hin.
  - rewrite Hp, Ha. exists (session st), [EvScore i].
    rewrite <- !app_assoc. split; [done|]. split; [by repeat constructor | done].
  - rewrite Hp, Ha. exists (session st), [EvScore i].
    destruct Hl as [Hs | [[s Hs] Hj]].
    + rewrite Hs, <- !app_assoc. split; [done|]. split; [by repeat constructor | done].
    + rewrite Hs, Hj, <- !app_assoc. split; [done|]. split; [by repeat constructor | done].
  - rewrite Hp, Ha, Hs, Hj, Hc; simpl.
    exists (session st ++ [new_row jd f s j]), [EvScore i; EvAdd i; EvCommit i].
    rewrite <- !app_assoc. split; [done|]. split; [by repeat constructor|].
    intros ev _ _. by exists text, a, s, j.
Qed.

(** The loop from position [i]: [k] files go through, each leaving one row
    and one entry, and then either the list is exhausted or file [k] stops
    the loop. *)
Lemma process_files_run files : forall i results st r st',
  session st = [] ->
  process_files E jd i files results st = (r, st') ->
  exists k rows entries tr,
    length rows = k /\ length entries = k
    /\ table st' = table st ++ rows
    /\ trace st' = trace st ++ tr
    /\ (forall ev n, ev ∈ tr -> ev_file ev = Some n ->
          (i <= n <= i + k /\ n < i + length files)%nat)
    /\ (forall n, (n < k)%nat ->
          exists f s j row,
            files !! n = Some f /\ file_succeeds E jd (i + n) f s j
            /\ rows !! n = Some row /\ row_of E row jd f s j
            /\ entries !! n = Some (entry_of f s j))
    /\ ((k = length files /\ r = Return (results ++ entries) /\ session st' = [])
        \/ (exists f e, files !! k = Some f /\ file_fails E jd (i + k) f e
                        /\ r = Raise e /\ EvExtract (i + k) ∈ tr
                        /\ (forall ev, ev ∈ tr ->
                              ev = EvAdd (i + k) \/ ev = EvCommit (i + k) ->
                              reaches_storage E jd (i + k) f))).
Proof.
  induction files as [|f rest IH]; intros i results st r st' Hsess Hrun.
  - simpl in Hrun. injection Hrun as <- <-.
    exists 0%nat, [], [], []. rewrite !app_nil_r.
    do 4 (split; [done|]).
    split; [intros ev n Hin; by apply elem_of_nil in Hin|].
    split; [intros n Hn; lia|].
    by left.
  - simpl in Hrun. unfold mbind at 1, M_bind at 1 in Hrun.
    destruct (succeeds_or_fails E jd i f) as [(s & j & Hok) | (e & Hfail)].
    + rewrite (process_file_succeeds i f s j st Hsess Hok) in Hrun.
      apply IH in Hrun as (k & rows & entries & tr & Hrows & Hent & Htbl & Htr
                           & Hev & Hfiles & Hend); [|done].
      simpl in Htbl, Htr.
      exists (S k), (stored_row E jd i (table st) f s j :: rows), (entry_of f s j :: entries),
             ([EvExtract i; EvScore i; EvAdd i; EvCommit i] ++ tr).
      split; [simpl; lia|]. split; [simpl; lia|].
      split; [by rewrite Htbl, <- app_assoc|].
      split; [by rewrite Htr, <- app_assoc|].
      split; [|split].
      * intros ev n Hin Hn. apply elem_of_app in Hin as [Hin|Hin].
        -- assert (n = i) as ->.
           { repeat (apply elem_of_cons in Hin as [->|Hin]; [simpl in Hn; congruence|]).
             by apply elem_of_nil in Hin. }
           simpl. lia.
        -- specialize (Hev ev n Hin Hn). simpl. lia.
      * intros [|n] Hn.
        -- exists f, s, j, (stored_row E jd i (table st) f s j).
           rewrite Nat.add_0_r. repeat split; try done.
        -- destruct (Hfiles n) as (f' & s' & j' & row & Hf' & Hok' & Hrow & Hrowof & He');
             [lia|].
           exists f', s', j', row. replace (i + S n)%nat with (S i + n)%nat by lia.
           repeat split; try done; apply Hrowof.
      * destruct Hend as [(Hk & Hr & Hs') | (f' & e & Hf' & Hfail & -> & Hx & Hst)].
        -- left. split; [simpl; lia|]. split; [by rewrite Hr, <- app_assoc | done].
        -- right. exists f', e. replace (i + S k)%nat with (S i + k)%nat by lia.
           do 3 (split; [done|]). split; [apply elem_of_app; by right|].
           intros ev Hin Hev'. apply elem_of_app in Hin as [Hin|Hin]; [|by eapply Hst].
           exfalso.
           repeat (apply elem_of_cons in Hin as [->|Hin];
                   [destruct Hev' as [Hev'|Hev']; try discriminate;
                    injection Hev' as Hev'; lia|]).
           by apply elem_of_nil in Hin.
    + destruct (process_file_fails i f e st Hfail) as (pend & tr & Heq & Htr & Hst).
      rewrite Heq in Hrun. injection Hrun as <- <-.
      exists 0%nat, [], [], (EvExtract i :: tr). simpl. rewrite app_nil_r.
      do 4 (split; [done|]).
      split; [|split].
      * intros ev n Hin Hn.
        assert (n = i) as ->; [|lia].
        apply elem_of_cons in Hin as [->|Hin]; [simpl in Hn; congruence|].
        rewrite Forall_forall in Htr. specialize (Htr _ Hin). congruence.
      * intros n Hn. lia.
      * right. exists f, e. rewrite Nat.add_0_r.
        do 3 (split; [done|]). split; [apply elem_of_cons; by left|].
        intros ev Hin Hev'. apply elem_of_cons in Hin as [->|Hin]; [|by eapply Hst].
        destruct Hev'; discriminate.
Qed.

End loop.

(** ** Running the handler *)

Lemma check_file_types_Return files :
  check_file_types files = Return () <-> Forall (fun f => has_allowed_extension f = true) files.
Proof.
  induction files as [|f rest IH]; simpl.
  - split; [by constructor | done].
  - destruct (has_allowed_extension f) eqn:Hf.
    + rewrite IH. split; [by constructor | by inversion 1].
    + split; [done | inversion 1; congruence].
Qed.

Lemma check_file_types_Raise files e :
  check_file_types files = Raise e ->
  exists f, f ∈ files /\ has_allowed_extension f = false
            /\ e = HTTPException 400 ("Unsupported file type: " +:+ UploadFile.filename f).
Proof.
  induction files as [|f rest IH]; simpl; [done|].
  destruct (has_allowed_extension f) eqn:Hf.
  - intros (g & Hin & Hg)%IH. exists g. split; [by apply list_elem_of_further | done].
  - intros [= <-]. exists f. split; [apply list_elem_of_here | done].
Qed.

Lemma batch_valid_dec files :
  batch_valid files
  \/ files = [] \/ (10 < length files)%nat
  \/ exists f, f ∈ files /\ has_allowed_extension f = false.
Proof.
  destruct files as [|f0 rest]; [by right; left|].
  destruct (decide (10 < length (f0 :: rest))%nat) as [Hlen|Hlen]; [by right; right; left|].
  destruct (check_file_types (f0 :: rest)) as [[]|e] eqn:Hc.
  - left. split; [done|]. split; [lia|]. by apply check_file_types_Return.
  - right; right; right.
    apply check_file_types_Raise in Hc as (f & Hin & Hf & _). eauto.
Qed.

Section handler.
Variable E : Env.
Variable jd : string.

Lemma analyze_resumes_rejects files st :
  ~ batch_valid files ->
  exists detail, analyze_resumes E jd files st = (Raise (HTTPException 400 detail), st).
Proof.
  intros Hinv. unfold analyze_resumes.
  case_bool_decide as Hnil; [by eexists|].
  destruct (10 <? length files)%nat eqn:Hlen; [by eexists|].
  apply Nat.ltb_ge in Hlen.
  destruct (check_file_types files) as [[]|e] eqn:Hc.
  - exfalso. apply Hinv. split; [done|]. split; [done|]. by apply check_file_types_Return.
  - apply check_file_types_Raise in Hc as Hf. destruct Hf as (f & _ & _ & ->).
    by eexists.
Qed.

Lemma analyze_resumes_accepts files st r1 st1 :
  batch_valid files ->
  process_files E jd 0 files [] (opened st) = (r1, st1) ->
  analyze_resumes E jd files st =
    match r1 with
    | Return results =>
        (Return (Results results),
         {| table := table st1; session := []; trace := trace st1 ++ [EvClose] |})
    | Raise e =>
        (Raise (HTTPException 500 ("Error processing files: " +:+ str_exn E e)),
         {| table := table st1; session := [];
            trace := trace st1 ++ [EvRollback; EvClose] |})
    end.
Proof.
  intros (Hnil & Hlen & Hext) Hrun. unfold analyze_resumes.
  case_bool_decide; [done|].
  apply Nat.ltb_ge in Hlen. rewrite Hlen.
  apply check_file_types_Return in Hext.
  unfold mbind at 1 2, M_bind at 1 2, lift at 1. rewrite Hext. simpl.
  unfold try_finally, try_except. unfold mbind at 1, M_bind at 1.
  fold (opened st). rewrite Hrun.
  destruct r1 as [results|e]; simpl.
  - reflexivity.
  - by rewrite <- app_assoc.
Qed.

End handler.

(** ** The scoring client's post-processing *)

Section post_processing.
Implicit Types s marker : string.

Lemma opening_marker marker s :
  (if startswith s marker then slice_from (String.length marker) s else s)
  = default s (without_prefix marker s).
Proof.
  unfold without_prefix. case_decide as Hp.
  - apply startswith_prefix in Hp as ->. simpl.
    apply chars_inj.
    by rewrite slice_from_drop, list_ascii_of_string_of_list_ascii, chars_length.
  - destruct (startswith s marker) eqn:Hs; [|done].
    by apply startswith_prefix in Hs.
Qed.

Lemma closing_marker marker s :
  (if endswith s marker then slice_to_neg (String.length marker) s else s)
  = default s (without_suffix marker s).
Proof.
  unfold without_suffix. case_decide as Hp.
  - apply endswith_suffix in Hp as ->. simpl.
    apply chars_inj.
    by rewrite slice_to_neg_take, list_ascii_of_string_of_list_ascii, !chars_length.
  - destruct (endswith s marker) eqn:Hs; [|done].
    by apply endswith_suffix in Hs.
Qed.

Lemma is_empty_response_trim (t : option string) :
  is_empty_response t = bool_decide (strip (default EmptyString t) = EmptyString).
Proof.
  destruct t as [s|]; simpl; [|done].
  destruct (String.eqb_spec s EmptyString) as [->|Hs]; [done|]. simpl.
  destruct (String.eqb_spec (strip s) EmptyString) as [Heq|Hne].
  - by rewrite bool_decide_eq_true_2.
  - by rewrite bool_decide_eq_false_2.
Qed.

(** The test of line 180 holds exactly for a response that is absent,
    empty, or white space only. *)
Lemma is_empty_response_blank (t : option string) :
  is_empty_response t = true <-> blank t.
Proof.
  rewrite is_empty_response_trim, bool_decide_eq_true.
  destruct t as [s|]; simpl; [apply strip_empty_iff | done].
Qed.

Lemma is_empty_response_not_blank (t : option string) :
  is_empty_response t = false <-> ~ blank t.
Proof.
  rewrite <- is_empty_response_blank. by destruct (is_empty_response t).
Qed.

(** The text handed to [json.loads], in the words of the specification
    with the opening markers tried in sequence. *)
Lemma clean_response_sequential s :
  clean_response s =
    let trimmed := strip s in
    let unfenced := default trimmed (without_prefix fence_json trimmed) in
    let unfenced := default unfenced (without_prefix fence unfenced) in
    let unfenced := default unfenced (without_suffix fence unfenced) in
    strip unfenced.
Proof.
  unfold clean_response. cbv zeta.
  change 7%nat with (String.length fence_json).
  change 3%nat with (String.length fence).
  change "```json" with fence_json. change "```" with fence.
  by rewrite !opening_marker, closing_marker.
Qed.

End post_processing.

(** C3, as amended: for every response text, present or absent, the
    post-processing of [get_analysis] is: trim; fail when the result is
    empty; strip the 7-character marker when the text starts with it; THEN
    strip the 3-character marker when what is left starts with it; strip
    the 3-character marker when the text ends with it; trim again; parse
    as JSON. *)
Theorem post_processing_tries_markers_in_sequence (E : Env) (t : option string) :
  parse_response E {| text := Return t |} = post_process_sequential E t.
Proof.
  unfold parse_response, post_process_sequential. simpl.
  rewrite is_empty_response_trim. cbv zeta.
  case_bool_decide as Hempty.
  - by rewrite decide_True.
  - rewrite decide_False by done.
    by rewrite clean_response_sequential.
Qed.

(** C3 as stated fails: on a response that opens with the 7-character
    marker directly followed by the 3-character one, the code strips both
    and parses what follows, the stated algorithm strips one and hands the
    parser a text that still starts with a fence. *)
Lemma post_processing_not_else_if :
  clean_response "```json```1" = "1"
  /\ parse_response (Demo.env [] []) {| text := Return (Some "```json```1") |}
     = Return (PyInt 1)
  /\ post_process_spec (Demo.env [] []) (Some "```json```1")
     = Raise (JSONDecodeError "Expecting value")
  /\ parse_response (Demo.env [] []) {| text := Return (Some "```json```1") |}
     <> post_process_spec (Demo.env [] []) (Some "```json```1").
Proof. repeat split; try (vm_compute; reflexivity). vm_compute. discriminate. Qed.

(** ** The handler on a batch that passes validation *)

Section batch.
Variable E : Env.
Variable jd : string.

Lemma fails_deterministic i f e1 e2 :
  file_fails E jd i f e1 -> file_fails E jd i f e2 -> e1 = e2.
Proof. intros H1%file_result_fails H2%file_result_fails. congruence. Qed.

(** The first file that stops the loop ends the request: rows for the
    files before it, no event for the files after it, status 500. *)
Lemma analyze_resumes_aborts files st k f e :
  batch_valid files ->
  files !! k = Some f ->
  (forall n g, (n < k)%nat -> files !! n = Some g -> exists s j, file_succeeds E jd n g s j) ->
  file_fails E jd k f e ->
  exists rows tr,
    analyze_resumes E jd files st =
      (Raise (HTTPException 500 ("Error processing files: " +:+ str_exn E e)),
       {| table := table st ++ rows; session := []; trace := trace st ++ tr |})
    /\ length rows = k
    /\ (forall n, (n < k)%nat ->
          exists g s j row,
            files !! n = Some g /\ file_succeeds E jd n g s j
            /\ rows !! n = Some row /\ row_of E row jd g s j)
    /\ (forall ev n, ev ∈ tr -> ev_file ev = Some n -> (n <= k)%nat)
    /\ (forall ev, ev ∈ tr -> ev = EvAdd k \/ ev = EvCommit k -> reaches_storage E jd k f).
Proof.
  intros Hvalid Hk Hbefore Hfail.
  destruct (process_files E jd 0 files [] (opened st)) as [r1 st1] eqn:Hrun.
  rewrite (analyze_resumes_accepts E jd files st r1 st1 Hvalid Hrun).
  apply process_files_run in Hrun
    as (k' & rows & entries & tr & Hrows & Hent & Htbl & Htr & Hev & Hfiles & Hend); [|done].
  simpl in Htbl, Htr, Hev, Hfiles, Hend.
  assert (k' = k /\ r1 = Raise e
          /\ (forall ev, ev ∈ tr -> ev = EvAdd k \/ ev = EvCommit k ->
                         reaches_storage E jd k f)) as (-> & -> & Hst).
  { destruct Hend as [(Hlen & _) | (f' & e' & Hf' & Hfail' & -> & _ & Hst)].
    - exfalso. apply lookup_lt_Some in Hk as Hlt.
      destruct (Hfiles k) as (g & s & j & _ & Hg & Hok & _); [lia|].
      rewrite Hk in Hg. injection Hg as <-. by eapply succeeds_not_fails.
    - destruct (Nat.lt_trichotomy k' k) as [Hlt | [-> | Hgt]].
      + exfalso. destruct (Hbefore k' f' Hlt Hf') as (s & j & Hok).
        by eapply succeeds_not_fails.
      + rewrite Hk in Hf'. injection Hf' as <-.
        by rewrite (fails_deterministic _ _ _ _ Hfail Hfail').
      + exfalso. destruct (Hfiles k Hgt) as (g & s & j & _ & Hg & Hok & _).
        rewrite Hk in Hg. injection Hg as <-. by eapply succeeds_not_fails. }
  exists rows, (tr ++ [EvRollback; EvClose]).
  split; [by rewrite Htbl, Htr, <- app_assoc|].
  split; [done|]. split; [|split].
  - intros n Hn.
    destruct (Hfiles n Hn) as (g & s & j & row & Hg & Hok & Hrow & Hrowof & _).
    by exists g, s, j, row.
  - intros ev n Hin Hn. apply elem_of_app in Hin as [Hin|Hin].
    + specialize (Hev ev n Hin Hn). lia.
    + exfalso. repeat (apply elem_of_cons in Hin as [->|Hin]; [discriminate|]).
      by apply elem_of_nil in Hin.
  - intros ev Hin Hev'. apply elem_of_app in Hin as [Hin|Hin]; [by eapply Hst|].
    exfalso.
    repeat (apply elem_of_cons in Hin as [->|Hin]; [destruct Hev'; discriminate|]).
    by apply elem_of_nil in Hin.
Qed.

(** When every file goes through, the loop ends and the results are
    returned. *)
Lemma analyze_resumes_completes files st :
  batch_valid files ->
  (forall n g, files !! n = Some g -> exists s j, file_succeeds E jd n g s j) ->
  exists results rows tr,
    analyze_resumes E jd files st =
      (Return (Results results),
       {| table := table st ++ rows; session := []; trace := trace st ++ tr |})
    /\ length results = length files
    /\ length rows = length files
    /\ (forall n g, files !! n = Some g ->
          exists s j row,
            file_succeeds E jd n g s j
            /\ results !! n = Some (entry_of g s j)
            /\ rows !! n = Some row /\ row_of E row jd g s j).
Proof.
  intros Hvalid Hall.
  destruct (process_files E jd 0 files [] (opened st)) as [r1 st1] eqn:Hrun.
  rewrite (analyze_resumes_accepts E jd files st r1 st1 Hvalid Hrun).
  apply process_files_run in Hrun
    as (k & rows & entries & tr & Hrows & Hent & Htbl & Htr & Hev & Hfiles & Hend); [|done].
  simpl in Htbl, Htr, Hev, Hfiles, Hend.
  destruct Hend as [(-> & -> & _) | (f' & e' & Hf' & Hfail' & _)].
  - exists entries, rows, (tr ++ [EvClose]).
    split; [by rewrite Htbl, Htr, <- app_assoc|].
    split; [done|]. split; [done|].
    intros n g Hg. apply lookup_lt_Some in Hg as Hlt.
    destruct (Hfiles n Hlt) as (g' & s & j & row & Hg' & Hok & Hrow & Hrowof & Hentry).
    rewrite Hg in Hg'. injection Hg' as <-. by exists s, j, row.
  - exfalso. destruct (Hall _ _ Hf') as (s & j & Hok). by eapply succeeds_not_fails.
Qed.

End batch.

(** C5, as amended: for a batch that passes validation in which every
    file is extracted, scored (the client returns an object with both
    keys) and committed, the handler returns, with status 200, a [results]
    list with one entry per file in submission order, each with that
    file's name and the score and justification the scoring client
    returned, and the table gains one row per file, in the same order,
    with that file's name, the job description, and the score and the
    justification as the [Integer] and the [Text] column keep them. *)
Theorem batch_completes (E : Env) (jd : string) (files : list UploadFile.t) (st : state) :
  batch_valid files ->
  (forall n g, files !! n = Some g -> exists s j, file_succeeds E jd n g s j) ->
  exists r st' results rows,
    analyze_resumes E jd files st = (r, st')
    /\ r = Return (Results results)
    /\ http_status r = 200%nat
    /\ length results = length files
    /\ table st' = table st ++ rows
    /\ length rows = length files
    /\ (forall n g, files !! n = Some g ->
          exists s j row,
            file_succeeds E jd n g s j
            /\ results !! n = Some (entry_of g s j)
            /\ rows !! n = Some row /\ row_of E row jd g s j).
Proof.
  intros Hvalid Hall.
  destruct (analyze_resumes_completes E jd files st Hvalid Hall)
    as (results & rows & tr & Hrun & Hres & Hrows & Hrel).
  eexists _, _, results, rows. split; [exact Hrun|].
  split; [done|]. split; [done|]. split; [done|]. split; [done|]. split; [done|].
  exact Hrel.
Qed.

(** Two text files, scored 8 and 5. *)
Lemma batch_completes_witness :
  exists r st' results rows,
    analyze_resumes (Demo.env [Demo.says "good"; Demo.says "fair"] []) "jd"
      [Demo.upload "a.txt"; Demo.upload "b.txt"] Demo.fresh = (r, st')
    /\ r = Return (Results results)
    /\ http_status r = 200%nat
    /\ length results = 2%nat
    /\ table st' = table Demo.fresh ++ rows
    /\ length rows = 2%nat
    /\ (forall n g, [Demo.upload "a.txt"; Demo.upload "b.txt"] !! n = Some g ->
          exists s j row,
            file_succeeds (Demo.env [Demo.says "good"; Demo.says "fair"] []) "jd" n g s j
            /\ results !! n = Some (entry_of g s j)
            /\ rows !! n = Some row
            /\ row_of (Demo.env [Demo.says "good"; Demo.says "fair"] []) row "jd" g s j).
Proof.
  apply (batch_completes
           (Demo.env [Demo.says "good"; Demo.says "fair"] []) "jd"
           [Demo.upload "a.txt"; Demo.upload "b.txt"] Demo.fresh).
  - split; [discriminate|]. split; [simpl; lia|]. repeat constructor.
  - intros [|[|n]] g Hg; [| |discriminate]; injection Hg as <-.
    + exists (PyInt 8), (PyStr "strong match"). eexists _, _.
      repeat split; vm_compute; reflexivity.
    + exists (PyInt 5), (PyStr "partial match"). eexists _, _.
      repeat split; vm_compute; reflexivity.
Defined.

(** C5 as stated fails: one text file that is extracted, scored and
    committed, for which the client returns the score as the text of a
    numeral and the justification as a number; the answer is 200 with
    these two values, and the one new row holds neither of them. *)
Lemma stored_row_not_verbatim :
  batch_valid [Demo.upload "a.txt"]
  /\ file_succeeds (Demo.env [Demo.says "typed"] []) "jd" 0 (Demo.upload "a.txt")
       (PyStr "8") (PyInt 7)
  /\ fst (analyze_resumes (Demo.env [Demo.says "typed"] []) "jd"
            [Demo.upload "a.txt"] Demo.fresh)
     = Return (Results [entry_of (Demo.upload "a.txt") (PyStr "8") (PyInt 7)])
  /\ exists row,
       table (snd (analyze_resumes (Demo.env [Demo.says "typed"] []) "jd"
                     [Demo.upload "a.txt"] Demo.fresh)) = [row]
       /\ ResumeAnalysis.filename row = "a.txt"
       /\ ResumeAnalysis.job_description row = "jd"
       /\ ResumeAnalysis.score row <> PyStr "8"
       /\ ResumeAnalysis.justification row <> PyInt 7.
Proof.
  split; [split; [discriminate|]; split; [simpl; lia|]; repeat constructor|].
  split; [eexists _, _; repeat split; vm_compute; reflexivity|].
  split; [vm_compute; reflexivity|].
  eexists. split; [vm_compute; reflexivity|].
  repeat split; try reflexivity; discriminate.
Qed.

(** C1: for a batch that passes validation, when the files before position
    [k] go through and the file at position [k] fails (in extraction, in
    scoring, at the key lookup or at the commit), the handler answers 500
    and returns no results list; the table keeps the rows it had and holds
    one committed row for each of the [k] files before the failing one; no
    step (extraction, scoring, add, commit) is ever made for a file after
    position [k]. *)
Theorem batch_aborts_at_failing_file (E : Env) (jd : string)
    (files : list UploadFile.t) (st : state) (k : nat) (f : UploadFile.t) (e : exn) :
  batch_valid files ->
  files !! k = Some f ->
  (forall n g, (n < k)%nat -> files !! n = Some g -> exists s j, file_succeeds E jd n g s j) ->
  file_fails E jd k f e ->
  exists r st' rows tr,
    analyze_resumes E jd files st = (r, st')
    /\ http_status r = 500%nat
    /\ (forall results, r <> Return (Results results))
    /\ table st' = table st ++ rows
    /\ length rows = k
    /\ (forall n, (n < k)%nat ->
          exists g s j row,
            files !! n = Some g /\ file_succeeds E jd n g s j
            /\ rows !! n = Some row /\ row_of E row jd g s j)
    /\ trace st' = trace st ++ tr
    /\ (forall ev n, ev ∈ tr -> ev_file ev = Some n -> (n <= k)%nat).
Proof.
  intros Hvalid Hk Hbefore Hfail.
  destruct (analyze_resumes_aborts E jd files st k f e Hvalid Hk Hbefore Hfail)
    as (rows & tr & Hrun & Hlen & Hrows & Hev & _).
  eexists _, _, rows, tr. split; [exact Hrun|]. simpl.
  split; [done|]. split; [done|]. split; [done|]. split; [done|].
  split; [done|]. split; [done|]. exact Hev.
Qed.

(** Three files, the service is unreachable for the second. *)
Lemma batch_aborts_witness :
  exists r st' rows tr,
    analyze_resumes
      (Demo.env [Demo.says "good"; Demo.unreachable; Demo.says "good"] []) "jd"
      [Demo.upload "a.txt"; Demo.upload "b.pdf"; Demo.upload "c.docx"] Demo.fresh = (r, st')
    /\ http_status r = 500%nat
    /\ (forall results, r <> Return (Results results))
    /\ table st' = table Demo.fresh ++ rows
    /\ length rows = 1%nat
    /\ (forall n, (n < 1)%nat ->
          exists g s j row,
            [Demo.upload "a.txt"; Demo.upload "b.pdf"; Demo.upload "c.docx"] !! n = Some g
            /\ file_succeeds
                 (Demo.env [Demo.says "good"; Demo.unreachable; Demo.says "good"] [])
                 "jd" n g s j
            /\ rows !! n = Some row
            /\ row_of (Demo.env [Demo.says "good"; Demo.unreachable; Demo.says "good"] [])
                 row "jd" g s j)
    /\ trace st' = trace Demo.fresh ++ tr
    /\ (forall ev n, ev ∈ tr -> ev_file ev = Some n -> (n <= 1)%nat).
Proof.
  apply (batch_aborts_at_failing_file
           (Demo.env [Demo.says "good"; Demo.unreachable; Demo.says "good"] []) "jd"
           [Demo.upload "a.txt"; Demo.upload "b.pdf"; Demo.upload "c.docx"] Demo.fresh
           1 (Demo.upload "b.pdf")
           (HTTPException 500 "Error analyzing resume: 503")).
  - split; [discriminate|]. split; [simpl; lia|]. repeat constructor.
  - reflexivity.
  - intros [|n] g Hn Hg; [|lia]. injection Hg as <-.
    exists (PyInt 8), (PyStr "strong match"). eexists _, _.
    repeat split; vm_compute; reflexivity.
  - eapply scoring_fails; vm_compute; reflexivity.
Defined.

(** ** The scoring client's failures *)

(** C7, what the code does: when the response text is absent, empty or
    white space only, line 181 raises the empty-response error inside the
    [try] of line 175, the clause of line 203 catches it, and what leaves
    [get_analysis] is the scoring-failure error that line 205 builds
    around it, the same that wraps any failure of the service, and not
    the empty-response error itself. *)
Theorem empty_response_leaves_as_scoring_failure (E : Env) (i : nat)
    (resume_text jd_text : string) (response : GenerateContentResponse)
    (t : option string) :
  generate_content E i (build_prompt resume_text jd_text) = Return response ->
  text response = Return t ->
  blank t ->
  get_analysis E i resume_text jd_text = Raise (ScoringFailed E EmptyResponse)
  /\ get_analysis E i resume_text jd_text <> Raise EmptyResponse.
Proof.
  intros Hgen Htext Hempty%is_empty_response_blank.
  assert (get_analysis E i resume_text jd_text = Raise (ScoringFailed E EmptyResponse)) as Hrun.
  { unfold get_analysis, parse_response. rewrite Hgen, Htext. simpl. by rewrite Hempty. }
  split; [done|]. rewrite Hrun. unfold ScoringFailed, EmptyResponse. simpl. intros [=].
Qed.

(** A response of two blanks and a line feed. *)
Lemma empty_response_witness :
  get_analysis (Demo.env [Demo.says ("  " +:+ nl)] []) 0 "resume" "jd"
  = Raise (ScoringFailed (Demo.env [Demo.says ("  " +:+ nl)] []) EmptyResponse)
  /\ get_analysis (Demo.env [Demo.says ("  " +:+ nl)] []) 0 "resume" "jd"
     <> Raise EmptyResponse.
Proof.
  apply (empty_response_leaves_as_scoring_failure
           (Demo.env [Demo.says ("  " +:+ nl)] []) 0 "resume" "jd"
           {| text := Return (Some ("  " +:+ nl)) |} (Some ("  " +:+ nl))).
  - vm_compute; reflexivity.
  - vm_compute; reflexivity.
  - simpl. repeat constructor.
Defined.

Lemma invalid_format_not_scoring_failure (E : Env) (msg : string) (e : exn) :
  InvalidResponseFormat E msg <> ScoringFailed E e.
Proof. unfold InvalidResponseFormat, ScoringFailed. simpl. intros [=]. Qed.

(** What [get_analysis] does with a response that is not empty. *)
Lemma get_analysis_parses (E : Env) (i : nat) (resume_text jd_text : string)
    (response : GenerateContentResponse) (r : string) :
  generate_content E i (build_prompt resume_text jd_text) = Return response ->
  text response = Return (Some r) ->
  is_empty_response (Some r) = false ->
  get_analysis E i resume_text jd_text =
    match json_loads E (clean_response r) with
    | Return v => Return v
    | Raise (JSONDecodeError msg) => Raise (InvalidResponseFormat E msg)
    | Raise e => Raise (ScoringFailed E e)
    end.
Proof.
  intros Hgen Htext Hempty.
  unfold get_analysis, parse_response. rewrite Hgen, Htext. simpl in *. rewrite Hempty.
  by destruct (json_loads E (clean_response r)) as [v|[]].
Qed.

(** C8: when the response text is there and is not empty nor white space
    only, and [json.loads] rejects the post-processed text with a
    [JSONDecodeError],
    [get_analysis] raises the invalid-format error, an [HTTPException]
    whose detail carries the parser's message; this is never the
    scoring-failure error; and the handler, for a valid batch whose
    earlier files went through, answers 500. *)
Theorem malformed_response_is_invalid_format (E : Env) (i : nat)
    (resume_text jd : string) (response : GenerateContentResponse) (r msg : string) :
  generate_content E i (build_prompt resume_text jd) = Return response ->
  text response = Return (Some r) ->
  ~ blank (Some r) ->
  json_loads E (clean_response r) = Raise (JSONDecodeError msg) ->
  get_analysis E i resume_text jd = Raise (InvalidResponseFormat E msg)
  /\ (forall e, InvalidResponseFormat E msg <> ScoringFailed E e)
  /\ (forall files st f,
        batch_valid files ->
        files !! i = Some f ->
        (forall n g, (n < i)%nat -> files !! n = Some g ->
                     exists s j, file_succeeds E jd n g s j) ->
        parse_resume_file E f = Return resume_text ->
        exists st',
          analyze_resumes E jd files st
          = (Raise (ProcessingFailed E (InvalidResponseFormat E msg)), st')
          /\ http_status (Raise (ProcessingFailed E (InvalidResponseFormat E msg))
                          : outcome body) = 500%nat).
Proof.
  intros Hgen Htext Hempty%is_empty_response_not_blank Hjson.
  assert (get_analysis E i resume_text jd = Raise (InvalidResponseFormat E msg)) as Hrun.
  { rewrite (get_analysis_parses E i resume_text jd response r Hgen Htext Hempty).
    by rewrite Hjson. }
  split; [done|]. split; [intros e; apply invalid_format_not_scoring_failure|].
  intros files st f Hvalid Hf Hbefore Hparse.
  destruct (analyze_resumes_aborts E jd files st i f (InvalidResponseFormat E msg)
              Hvalid Hf Hbefore) as (rows & tr & Heq & _).
  { by eapply scoring_fails. }
  eexists. split; [exact Heq | done].
Qed.

(** The service answers with plain prose. *)
Lemma malformed_response_witness :
  get_analysis (Demo.env [Demo.says "Sure, here is my assessment"] []) 0 EmptyString "jd"
  = Raise (InvalidResponseFormat (Demo.env [Demo.says "Sure, here is my assessment"] [])
             "Expecting value")
  /\ (forall e, InvalidResponseFormat (Demo.env [Demo.says "Sure, here is my assessment"] [])
                  "Expecting value"
                <> ScoringFailed (Demo.env [Demo.says "Sure, here is my assessment"] []) e)
  /\ (forall files st f,
        batch_valid files ->
        files !! 0%nat = Some f ->
        (forall n g, (n < 0)%nat -> files !! n = Some g ->
                     exists s j,
                       file_succeeds (Demo.env [Demo.says "Sure, here is my assessment"] [])
                         "jd" n g s j) ->
        parse_resume_file (Demo.env [Demo.says "Sure, here is my assessment"] []) f
        = Return EmptyString ->
        exists st',
          analyze_resumes (Demo.env [Demo.says "Sure, here is my assessment"] []) "jd" files st
          = (Raise (ProcessingFailed (Demo.env [Demo.says "Sure, here is my assessment"] [])
                      (InvalidResponseFormat
                         (Demo.env [Demo.says "Sure, here is my assessment"] [])
                         "Expecting value")), st')
          /\ http_status
               (Raise (ProcessingFailed (Demo.env [Demo.says "Sure, here is my assessment"] [])
                         (InvalidResponseFormat
                            (Demo.env [Demo.says "Sure, here is my assessment"] [])
                            "Expecting value")) : outcome body) = 500%nat).
Proof.
  apply (malformed_response_is_invalid_format
           (Demo.env [Demo.says "Sure, here is my assessment"] []) 0 EmptyString "jd"
           {| text := Return (Some "Sure, here is my assessment") |}
           "Sure, here is my assessment" "Expecting value").
  - vm_compute; reflexivity.
  - vm_compute; reflexivity.
  - simpl. inversion 1 as [|? ? Hc _]. vm_compute in Hc. discriminate.
  - vm_compute; reflexivity.
Defined.

(** ** The values under the two keys *)

(** C9, as amended: when the response parses to an object that holds the
    keys [score] and [justification], [get_analysis] returns that object
    as it is, so the values found under the two keys are whatever values
    [s] and [j] the model wrote, of any type and size; and for a batch in
    which every file goes through, the entry returned for the file holds
    exactly [s] and [j], and the row stored for it holds what the
    [Integer] column keeps of [s] and what the [Text] column keeps of
    [j]. *)
Theorem scoring_values_pass_unvalidated (E : Env) (i : nat) (resume_text jd : string)
    (response : GenerateContentResponse) (r : string)
    (d : gmap string pyval) (s j : pyval) :
  generate_content E i (build_prompt resume_text jd) = Return response ->
  text response = Return (Some r) ->
  ~ blank (Some r) ->
  json_loads E (clean_response r) = Return (PyDict d) ->
  d !! "score" = Some s ->
  d !! "justification" = Some j ->
  get_analysis E i resume_text jd = Return (PyDict d)
  /\ getitem (PyDict d) "score" = Return s
  /\ getitem (PyDict d) "justification" = Return j
  /\ (forall files st f,
        batch_valid files ->
        files !! i = Some f ->
        parse_resume_file E f = Return resume_text ->
        (forall n g, files !! n = Some g -> exists s' j', file_succeeds E jd n g s' j') ->
        exists results rows tr row,
          analyze_resumes E jd files st =
            (Return (Results results),
             {| table := table st ++ rows; session := []; trace := trace st ++ tr |})
          /\ results !! i = Some {| ResultEntry.filename := UploadFile.filename f;
                                    ResultEntry.score := s;
                                    ResultEntry.justification := j |}
          /\ rows !! i = Some row
          /\ ResumeAnalysis.filename row = UploadFile.filename f
          /\ ResumeAnalysis.score row = integer_column E s
          /\ ResumeAnalysis.justification row = text_column E j).
Proof.
  intros Hgen Htext Hempty%is_empty_response_not_blank Hjson Hs Hj.
  assert (get_analysis E i resume_text jd = Return (PyDict d)) as Hrun.
  { rewrite (get_analysis_parses E i resume_text jd response r Hgen Htext Hempty).
    by rewrite Hjson. }
  assert (getitem (PyDict d) "score" = Return s) as Hgs by (simpl; by rewrite Hs).
  assert (getitem (PyDict d) "justification" = Return j) as Hgj by (simpl; by rewrite Hj).
  do 3 (split; [done|]).
  intros files st f Hvalid Hf Hparse Hall.
  destruct (analyze_resumes_completes E jd files st Hvalid Hall)
    as (results & rows & tr & Heq & _ & _ & Hrel).
  destruct (Hrel i f Hf) as (s' & j' & row & Hok & Hentry & Hrow & Hrowof).
  destruct Hok as (text' & a' & Hp' & Ha' & Hs' & Hj' & Hc').
  rewrite Hparse in Hp'. injection Hp' as <-.
  rewrite Hrun in Ha'. injection Ha' as <-.
  rewrite Hgs in Hs'. injection Hs' as <-.
  rewrite Hgj in Hj'. injection Hj' as <-.
  destruct Hrowof as (Hname & _ & Hscore & Hjust).
  by exists results, rows, tr, row.
Qed.

(** A score that is a word and a justification that is empty. *)
Lemma scoring_values_witness :
  get_analysis (Demo.env [Demo.says "odd"] []) 0 EmptyString "jd"
  = Return (PyDict {[ "score" := PyStr "high"; "justification" := PyStr EmptyString ]})
  /\ getitem (PyDict {[ "score" := PyStr "high"; "justification" := PyStr EmptyString ]})
       "score" = Return (PyStr "high")
  /\ getitem (PyDict {[ "score" := PyStr "high"; "justification" := PyStr EmptyString ]})
       "justification" = Return (PyStr EmptyString)
  /\ (forall files st f,
        batch_valid files ->
        files !! 0%nat = Some f ->
        parse_resume_file (Demo.env [Demo.says "odd"] []) f = Return EmptyString ->
        (forall n g, files !! n = Some g ->
           exists s' j', file_succeeds (Demo.env [Demo.says "odd"] []) "jd" n g s' j') ->
        exists results rows tr row,
          analyze_resumes (Demo.env [Demo.says "odd"] []) "jd" files st =
            (Return (Results results),
             {| table := table st ++ rows; session := []; trace := trace st ++ tr |})
          /\ results !! 0%nat = Some {| ResultEntry.filename := UploadFile.filename f;
                                        ResultEntry.score := PyStr "high";
                                        ResultEntry.justification := PyStr EmptyString |}
          /\ rows !! 0%nat = Some row
          /\ ResumeAnalysis.filename row = UploadFile.filename f
          /\ ResumeAnalysis.score row
             = integer_column (Demo.env [Demo.says "odd"] []) (PyStr "high")
          /\ ResumeAnalysis.justification row
             = text_column (Demo.env [Demo.says "odd"] []) (PyStr EmptyString)).
Proof.
  apply (scoring_values_pass_unvalidated
           (Demo.env [Demo.says "odd"] []) 0 EmptyString "jd"
           {| text := Return (Some "odd") |} "odd"
           {[ "score" := PyStr "high"; "justification" := PyStr EmptyString ]}
           (PyStr "high") (PyStr EmptyString)).
  - vm_compute; reflexivity.
  - vm_compute; reflexivity.
  - simpl. inversion 1 as [|? ? Hc _]. vm_compute in Hc. discriminate.
  - vm_compute; reflexivity.
  - vm_compute; reflexivity.
  - vm_compute; reflexivity.
Defined.

(** C9 as stated fails: the service answers with an object whose score is
    the text of a numeral and whose justification is a number; the entry
    returned holds these two values, the row stored holds the number 8
    and the text of 7. *)
Lemma stored_values_are_converted :
  get_analysis (Demo.env [Demo.says "typed"] []) 0 EmptyString "jd"
  = Return (PyDict {[ "score" := PyStr "8"; "justification" := PyInt 7 ]})
  /\ analyze_resumes (Demo.env [Demo.says "typed"] []) "jd" [Demo.upload "a.txt"] Demo.fresh
     = (Return (Results [ {| ResultEntry.filename := "a.txt";
                              ResultEntry.score := PyStr "8";
                              ResultEntry.justification := PyInt 7 |} ]),
        {| table := [ {| ResumeAnalysis.id := Some 1%Z;
                         ResumeAnalysis.filename := "a.txt";
                         ResumeAnalysis.job_description := "jd";
                         ResumeAnalysis.score := PyInt 8;
                         ResumeAnalysis.justification := PyStr "7";
                         ResumeAnalysis.created_at := Some 0%Z |} ];
           session := [];
           trace := [EvExtract 0; EvScore 0; EvAdd 0; EvCommit 0; EvClose] |})
  /\ PyInt 8 <> PyStr "8"
  /\ PyStr "7" <> PyInt 7.
Proof. repeat split; try (vm_compute; reflexivity); discriminate. Qed.

(** C10: when the response parses, for the file at position [k] of a
    valid batch whose earlier files went through, to a value that is not
    an object or to an object without [score] or without [justification],
    the subscript of line 267 or 268 raises ([KeyError] or [TypeError]),
    the handler answers 500 with no results list, and nothing is added or
    committed for that file: the table holds the rows it had and one row
    for each of the [k] earlier files. *)
Theorem missing_keys_abort_batch (E : Env) (jd : string) (files : list UploadFile.t)
    (st : state) (k : nat) (f : UploadFile.t) (resume_text : string) (analysis : pyval) :
  batch_valid files ->
  files !! k = Some f ->
  (forall n g, (n < k)%nat -> files !! n = Some g -> exists s j, file_succeeds E jd n g s j) ->
  parse_resume_file E f = Return resume_text ->
  get_analysis E k resume_text jd = Return analysis ->
  lacks_keys analysis ->
  exists e r st' rows tr,
    (getitem analysis "score" = Raise e
     \/ (exists s, getitem analysis "score" = Return s)
        /\ getitem analysis "justification" = Raise e)
    /\ analyze_resumes E jd files st = (r, st')
    /\ r = Raise (ProcessingFailed E e)
    /\ http_status r = 500%nat
    /\ table st' = table st ++ rows
    /\ length rows = k
    /\ trace st' = trace st ++ tr
    /\ (EvAdd k ∉ tr) /\ (EvCommit k ∉ tr).
Proof.
  intros Hvalid Hk Hbefore Hparse Hscore Hlack.
  assert (exists e, getitem analysis "score" = Raise e
                    \/ (exists s, getitem analysis "score" = Return s)
                       /\ getitem analysis "justification" = Raise e) as (e & He).
  { destruct analysis as [| | | | | |d]; simpl in *; try (eexists; by left).
    destruct (d !! "score") as [s|] eqn:Hs; [|eexists; by left].
    destruct Hlack as [?|Hj]; [done|]. rewrite Hj. eexists. right. eauto. }
  assert (~ reaches_storage E jd k f) as Hnot.
  { intros (text' & a' & s' & j' & Hp' & Ha' & Hs' & Hj').
    rewrite Hparse in Hp'. injection Hp' as <-.
    rewrite Hscore in Ha'. injection Ha' as <-.
    destruct He as [He | [_ He]]; congruence. }
  destruct (analyze_resumes_aborts E jd files st k f e Hvalid Hk Hbefore)
    as (rows & tr & Heq & Hlen & _ & _ & Hst).
  { by eapply lookup_fails. }
  eexists e, _, _, rows, tr.
  split; [exact He|]. split; [exact Heq|]. simpl.
  do 5 (split; [done|]).
  split; intros Hin; apply Hnot; eapply Hst; eauto.
Qed.

(** The response is an object with the one key [rating]. *)
Lemma missing_keys_witness :
  exists e r st' rows tr,
    (getitem (PyDict {[ "rating" := PyInt 8 ]}) "score" = Raise e
     \/ (exists s, getitem (PyDict {[ "rating" := PyInt 8 ]}) "score" = Return s)
        /\ getitem (PyDict {[ "rating" := PyInt 8 ]}) "justification" = Raise e)
    /\ analyze_resumes (Demo.env [Demo.says "good"; Demo.says "other"] []) "jd"
         [Demo.upload "a.txt"; Demo.upload "b.txt"] Demo.fresh = (r, st')
    /\ r = Raise (ProcessingFailed (Demo.env [Demo.says "good"; Demo.says "other"] []) e)
    /\ http_status r = 500%nat
    /\ table st' = table Demo.fresh ++ rows
    /\ length rows = 1%nat
    /\ trace st' = trace Demo.fresh ++ tr
    /\ (EvAdd 1 ∉ tr) /\ (EvCommit 1 ∉ tr).
Proof.
  apply (missing_keys_abort_batch
           (Demo.env [Demo.says "good"; Demo.says "other"] []) "jd"
           [Demo.upload "a.txt"; Demo.upload "b.txt"] Demo.fresh
           1 (Demo.upload "b.txt") EmptyString (PyDict {[ "rating" := PyInt 8 ]})).
  - split; [discriminate|]. split; [simpl; lia|]. repeat constructor.
  - reflexivity.
  - intros [|n] g Hn Hg; [|lia]. injection Hg as <-.
    exists (PyInt 8), (PyStr "strong match"). eexists _, _.
    repeat split; vm_compute; reflexivity.
  - vm_compute; reflexivity.
  - vm_compute; reflexivity.
  - left. vm_compute; reflexivity.
Defined.

(** ** Validation *)

Section extensions.
Implicit Types name ext : string.

Lemma chars_lower name : chars (lower name) = lower_char <$> chars name.
Proof. induction name as [|c name IH]; simpl; [done | by rewrite IH]. Qed.

Lemma lower_app s1 s2 : lower (s1 +:+ s2) = lower s1 +:+ lower s2.
Proof. induction s1 as [|c s1 IH]; simpl; [done | by rewrite IH]. Qed.

(** The test of line 247 for one extension written in lower case. *)
Lemma endswith_lower_ci name ext :
  lower ext = ext ->
  endswith (lower name) ext = true <-> ends_with_ci name ext.
Proof.
  intros Hext. rewrite endswith_suffix. unfold ends_with_ci. rewrite Hext. split.
  - intros [k Hk]. rewrite chars_lower in Hk.
    apply fmap_app_inv in Hk as (l1 & l2 & Hl1 & Hl2 & Hname).
    exists (text_of l1), (text_of l2). split.
    + apply chars_inj.
      by rewrite chars_app, !list_ascii_of_string_of_list_ascii.
    + apply chars_inj.
      by rewrite chars_lower, list_ascii_of_string_of_list_ascii.
  - intros (stem & sfx & -> & Hsfx).
    exists (chars (lower stem)). by rewrite lower_app, chars_app, Hsfx.
Qed.

Lemma has_allowed_extension_spec (f : UploadFile.t) :
  has_allowed_extension f = true <-> extension_allowed (UploadFile.filename f).
Proof.
  unfold has_allowed_extension, extension_allowed, allowed_extensions. simpl.
  rewrite !orb_true_iff.
  rewrite !endswith_lower_ci by reflexivity.
  split; [intros [?|[?|[?|?]]] | intros [?|[?|?]]]; auto; done.
Qed.

Lemma has_allowed_extension_false (f : UploadFile.t) :
  has_allowed_extension f = false <-> ~ extension_allowed (UploadFile.filename f).
Proof.
  rewrite <- has_allowed_extension_spec. by destruct (has_allowed_extension f).
Qed.

End extensions.

Lemma batch_invalid_iff (files : list UploadFile.t) :
  ~ batch_valid files <->
  files = [] \/ (10 < length files)%nat
  \/ exists f, f ∈ files /\ ~ extension_allowed (UploadFile.filename f).
Proof.
  split.
  - intros Hinv. destruct (batch_valid_dec files) as [Hv|[Hnil|[Hlen|(f & Hin & Hf)]]].
    + done.
    + by left.
    + by right; left.
    + right; right. exists f. by rewrite <- has_allowed_extension_false.
  - intros [-> | [Hlen | (f & Hin & Hf)]] (Hnil & Hle & Hall); [done | lia |].
    rewrite Forall_forall in Hall. apply Hf, has_allowed_extension_spec. by apply Hall.
Qed.

Lemma process_files_starts (E : Env) (jd : string) (f : UploadFile.t)
    (rest : list UploadFile.t) (i : nat) (results : list ResultEntry.t)
    (st : state) (r : outcome (list ResultEntry.t)) (st' : state) :
  session st = [] ->
  process_files E jd i (f :: rest) results st = (r, st') ->
  exists tr, trace st' = trace st ++ EvExtract i :: tr.
Proof.
  intros Hsess Hrun. simpl in Hrun. unfold mbind at 1, M_bind at 1 in Hrun.
  destruct (succeeds_or_fails E jd i f) as [(s & j & Hok) | (e & Hfail)].
  - rewrite (process_file_succeeds E jd i f s j st Hsess Hok) in Hrun.
    apply process_files_run in Hrun as (_ & _ & _ & tr & _ & _ & _ & Htr & _); [|done].
    simpl in Htr. exists ([EvScore i; EvAdd i; EvCommit i] ++ tr).
    by rewrite Htr, <- app_assoc.
  - destruct (process_file_fails E jd i f e st Hfail) as (pend & tr & Heq & _).
    rewrite Heq in Hrun. injection Hrun as <- <-. by exists tr.
Qed.

(** C4: the handler answers 400 exactly when the batch is empty, has more
    than 10 files, or holds a file whose name does not end, case ignored,
    in [.pdf], [.docx] or [.txt]; it then raises the error of the first
    check that fails and leaves the state as it found it, so that no file
    has been extracted, scored or stored; in every other case the loop is
    entered and the first file is extracted. *)
Theorem validation_rejects_iff (E : Env) (jd : string) (files : list UploadFile.t)
    (st : state) :
  exists r st',
    analyze_resumes E jd files st = (r, st')
    /\ (http_status r = 400%nat <->
        files = [] \/ (10 < length files)%nat
        \/ exists f, f ∈ files /\ ~ extension_allowed (UploadFile.filename f))
    /\ (http_status r = 400%nat -> st' = st)
    /\ (files = [] -> r = Raise EmptyBatch)
    /\ ((10 < length files)%nat -> r = Raise BatchTooLarge)
    /\ (files <> [] -> (length files <= 10)%nat -> http_status r = 400%nat ->
        exists f, f ∈ files /\ ~ extension_allowed (UploadFile.filename f)
                  /\ r = Raise (UnsupportedFileType (UploadFile.filename f)))
    /\ (http_status r <> 400%nat -> exists tr, trace st' = trace st ++ EvExtract 0 :: tr).
Proof.
  destruct (analyze_resumes E jd files st) as [r st'] eqn:Hrun.
  exists r, st'. split; [done|].
  destruct (batch_valid_dec files) as [Hvalid | Hinvalid].
  - (* the batch passes: the status is 200 or 500 *)
    destruct (process_files E jd 0 files [] (opened st)) as [r1 st1] eqn:Hloop.
    rewrite (analyze_resumes_accepts E jd files st r1 st1 Hvalid Hloop) in Hrun.
    assert (http_status r <> 400%nat) as Hstatus.
    { destruct r1; injection Hrun as <- <-; simpl; lia. }
    assert (~ (files = [] \/ (10 < length files)%nat
               \/ exists f, f ∈ files /\ ~ extension_allowed (UploadFile.filename f)))
      as Hnone.
    { intros H. by apply batch_invalid_iff in H. }
    split; [split; [done | intros H; by destruct Hnone]|].
    split; [done|].
    split; [intros ->; destruct Hnone; by left|].
    split; [intros Hlen; destruct Hnone; by right; left|].
    split; [done|].
    intros _. destruct Hvalid as (Hnil & _).
    destruct files as [|f rest]; [done|].
    apply process_files_starts in Hloop as (tr & Htr); [|done]. simpl in Htr.
    destruct r1; injection Hrun as <- <-; simpl; rewrite Htr, <- app_assoc; by eexists.
  - (* the batch is turned away *)
    assert (~ batch_valid files) as Hnot.
    { apply batch_invalid_iff.
      destruct Hinvalid as [Hnil|[Hlen|(f & Hin & Hf)]].
      - by left.
      - by right; left.
      - right; right. exists f. by rewrite <- has_allowed_extension_false. }
    destruct (analyze_resumes_rejects E jd files st Hnot) as (detail & Heq).
    rewrite Heq in Hrun. injection Hrun as <- <-. simpl.
    split; [split; [intros _; by apply batch_invalid_iff | done]|].
    split; [done|].
    split; [|split; [|split; [|done]]].
    + intros ->. unfold analyze_resumes in Heq. simpl in Heq. by injection Heq as <-.
    + intros Hlen. unfold analyze_resumes in Heq.
      case_bool_decide as Hnil; [subst; simpl in Hlen; lia|].
      apply Nat.ltb_lt in Hlen. rewrite Hlen in Heq. by injection Heq as <-.
    + intros Hnil Hlen _. unfold analyze_resumes in Heq.
      case_bool_decide; [done|].
      apply Nat.ltb_ge in Hlen. rewrite Hlen in Heq.
      unfold mbind, M_bind, lift in Heq.
      destruct (check_file_types files) as [[]|e] eqn:Hc.
      * exfalso. simpl in Heq. unfold try_finally, try_except in Heq.
        destruct (process_files E jd 0 files [] _) as [[?|?] ?]; simpl in Heq; discriminate.
      * injection Heq as ->.
        apply check_file_types_Raise in Hc as (f & Hin & Hf & Hd).
        exists f. split; [done|]. split; [by apply has_allowed_extension_false|].
        by rewrite Hd.
Qed.

(** ** The store over time *)

(** One request appends the rows of the files that went through and
    touches nothing else. *)
Lemma handle_appends (E : Env) (req : request) (st : state) :
  exists rows,
    table (snd (handle E req st)) = table st ++ rows /\ request_rows E req rows.
Proof.
  destruct req as [jd files|]; simpl.
  2:{ exists []. by rewrite app_nil_r. }
  destruct (batch_valid_dec files) as [Hvalid | Hinvalid].
  - destruct (process_files E jd 0 files [] (opened st)) as [r1 st1] eqn:Hloop.
    rewrite (analyze_resumes_accepts E jd files st r1 st1 Hvalid Hloop).
    apply process_files_run in Hloop
      as (k & rows & entries & tr & Hrows & _ & Htbl & _ & _ & Hfiles & _); [|done].
    simpl in Htbl, Hfiles. exists rows. split.
    + by destruct r1.
    + split.
      * intros n row Hrow. apply lookup_lt_Some in Hrow as Hlt. rewrite Hrows in Hlt.
        destruct (Hfiles n Hlt) as (f & s & j & row' & Hf & Hok & Hrow' & Hrowof & _).
        rewrite Hrow in Hrow'. injection Hrow' as <-. by exists f, s, j.
      * intros n f e Hf Hfail. apply lookup_ge_None. rewrite Hrows.
        destruct (decide (n < k)%nat) as [Hlt|]; [|lia]. exfalso.
        destruct (Hfiles n Hlt) as (f' & s & j & _ & Hf' & Hok & _).
        rewrite Hf in Hf'. injection Hf' as <-. by eapply succeeds_not_fails.
  - assert (~ batch_valid files) as Hnot.
    { intros (Hnil & Hlen & Hall).
      destruct Hinvalid as [?|[?|(f & Hin & Hf)]]; [done | lia |].
      rewrite Forall_forall in Hall. specialize (Hall f Hin). congruence. }
    destruct (analyze_resumes_rejects E jd files st Hnot) as (detail & ->). simpl.
    exists []. rewrite app_nil_r. split; [done|]. split; [|done].
    intros n row Hrow. by rewrite lookup_nil in Hrow.
Qed.

(** C6: whatever requests the service handles, in whatever outside world,
    the table afterwards is the table before followed, request by request,
    by the rows of that request; the row at position [n] of a request's
    rows is that of the file at position [n] of its batch, a file that was
    extracted, scored with both keys and committed, and carries the file's
    name, the request's job description and the values scored, these as
    the two typed columns keep them; a file that failed has no row; no
    earlier row is changed or removed. *)
Theorem store_only_grows_by_scored_files (reqs : list (Env * request)) (st : state) :
  exists batches : list (list ResumeAnalysis.t),
    table (serve reqs st) = table st ++ concat batches
    /\ Forall2 (fun er rows => request_rows (fst er) (snd er) rows) reqs batches.
Proof.
  revert st. induction reqs as [|[E req] rest IH]; intros st; simpl.
  - exists []. simpl. by rewrite app_nil_r.
  - destruct (handle_appends E req st) as (rows & Htbl & Hrows).
    destruct (IH (snd (handle E req st))) as (batches & Htbl' & Hall).
    exists (rows :: batches). simpl. split.
    + by rewrite Htbl', Htbl, <- app_assoc.
    + by constructor.
Qed.

(** ** A name in capital letters *)

(** C2, what the code does: a file named [CV.PDF] passes the check of line
    247, which lower-cases the name; [parse_resume_file], which does not,
    raises the unsupported-type error with status 400 once the loop has
    started on the file; the handler of line 282 catches it and answers
    500. *)
Theorem capital_extension_answers_500 (E : Env) (jd : string)
    (content : list Byte.byte) (st : state) :
  check_file_types [{| UploadFile.filename := "CV.PDF"; UploadFile.content := content |}]
  = Return ()
  /\ parse_resume_file E {| UploadFile.filename := "CV.PDF"; UploadFile.content := content |}
     = Raise (UnsupportedFileType "CV.PDF")
  /\ analyze_resumes E jd
       [{| UploadFile.filename := "CV.PDF"; UploadFile.content := content |}] st
     = (Raise (ProcessingFailed E (UnsupportedFileType "CV.PDF")),
        {| table := table st; session := [];
           trace := trace st ++ [EvExtract 0; EvRollback; EvClose] |})
  /\ http_status (Raise (ProcessingFailed E (UnsupportedFileType "CV.PDF")) : outcome body)
     = 500%nat.
Proof.
  split; [by vm_compute|]. split; [by vm_compute|]. split; [|done].
  unfold analyze_resumes. simpl.
  unfold mbind, M_bind, lift, SessionLocal, try_finally, try_except, process_file,
    emit, db_rollback, db_close, raise. simpl.
  by rewrite <- !app_assoc.
Qed.

(** With a first file that goes through, the row of that file is
    committed before the name in capitals is met. *)
Example capital_extension_after_commit :
  analyze_resumes (Demo.env [Demo.says "good"] []) "jd"
    [Demo.upload "a.txt"; Demo.upload "b.PDF"] Demo.fresh
  = (Raise (HTTPException 500 "Error processing files: Unsupported file type: b.PDF"),
     {| table := [ {| ResumeAnalysis.id := Some 1%Z;
                      ResumeAnalysis.filename := "a.txt";
                      ResumeAnalysis.job_description := "jd";
                      ResumeAnalysis.score := PyInt 8;
                      ResumeAnalysis.justification := PyStr "strong match";
                      ResumeAnalysis.created_at := Some 0%Z |} ];
        session := [];
        trace := [EvExtract 0; EvScore 0; EvAdd 0; EvCommit 0;
                  EvExtract 1; EvRollback; EvClose] |}).
Proof. vm_compute. reflexivity. Qed.

(** * Further properties of the code *)

(** ** The type check and the extractor *)

(** A name that ends in a lower-case extension still does once lower-cased. *)
Lemma endswith_lower (name ext : string) :
  lower ext = ext -> endswith name ext = true -> endswith (lower name) ext = true.
Proof.
  intros Hext [k Hk]%endswith_suffix. apply endswith_suffix.
  exists (lower_char <$> k).
  by rewrite chars_lower, Hk, fmap_app, <- chars_lower, Hext.
Qed.

Lemma endswith_lower_false (name ext : string) :
  lower ext = ext -> endswith (lower name) ext = false -> endswith name ext = false.
Proof.
  intros Hext Hlow. destruct (endswith name ext) eqn:H; [|done].
  apply (endswith_lower _ _ Hext) in H. congruence.
Qed.

(** X1: the check of line 247 is never stricter than the dispatch of lines
    113-134: a file the check would turn away is one [parse_resume_file]
    refuses too, with the unsupported-type error, whatever its content and
    whatever the libraries do. *)
Theorem refused_by_check_refused_by_extractor (E : Env) (f : UploadFile.t) :
  has_allowed_extension f = false ->
  parse_resume_file E f = Raise (UnsupportedFileType (UploadFile.filename f)).
Proof.
  unfold has_allowed_extension, allowed_extensions. simpl.
  rewrite !orb_false_iff. intros (Hpdf & Hdocx & Htxt & _).
  apply endswith_lower_false in Hpdf, Hdocx, Htxt; try reflexivity.
  unfold parse_resume_file. by rewrite Hpdf, Hdocx, Htxt.
Qed.

(** A program file. *)
Lemma refused_by_check_witness :
  parse_resume_file (Demo.env [] []) (Demo.upload "tool.exe")
  = Raise (UnsupportedFileType (UploadFile.filename (Demo.upload "tool.exe"))).
Proof.
  apply (refused_by_check_refused_by_extractor (Demo.env [] []) (Demo.upload "tool.exe")).
  vm_compute; reflexivity.
Defined.

(** X2: in a batch that passes the checks, a file whose name ends in none
    of [.pdf], [.docx], [.txt] as written (it passed the check through its
    lower-cased name) stops the request once the files before it went
    through: the handler answers 500, its detail wraps the extractor's
    400 error, and the rows of the earlier files are committed. *)
Theorem undispatched_name_stops_batch (E : Env) (jd : string)
    (files : list UploadFile.t) (st : state) (k : nat) (f : UploadFile.t) :
  batch_valid files ->
  files !! k = Some f ->
  (forall n g, (n < k)%nat -> files !! n = Some g -> exists s j, file_succeeds E jd n g s j) ->
  endswith (UploadFile.filename f) ".pdf" = false ->
  endswith (UploadFile.filename f) ".docx" = false ->
  endswith (UploadFile.filename f) ".txt" = false ->
  exists st' rows,
    analyze_resumes E jd files st
    = (Raise (ProcessingFailed E (UnsupportedFileType (UploadFile.filename f))), st')
    /\ table st' = table st ++ rows
    /\ length rows = k.
Proof.
  intros Hvalid Hk Hbefore Hpdf Hdocx Htxt.
  destruct (analyze_resumes_aborts E jd files st k f
              (UnsupportedFileType (UploadFile.filename f)) Hvalid Hk Hbefore)
    as (rows & tr & Heq & Hlen & _).
  { apply extraction_fails. unfold parse_resume_file. by rewrite Hpdf, Hdocx, Htxt. }
  eexists _, rows. split; [exact Heq|]. by split.
Qed.

(** A text file, then a name in capitals. *)
Lemma undispatched_name_witness :
  exists st' rows,
    analyze_resumes (Demo.env [Demo.says "good"] []) "jd"
      [Demo.upload "a.txt"; Demo.upload "b.Docx"] Demo.fresh
    = (Raise (ProcessingFailed (Demo.env [Demo.says "good"] [])
                (UnsupportedFileType (UploadFile.filename (Demo.upload "b.Docx")))), st')
    /\ table st' = table Demo.fresh ++ rows
    /\ length rows = 1%nat.
Proof.
  apply (undispatched_name_stops_batch (Demo.env [Demo.says "good"] []) "jd"
           [Demo.upload "a.txt"; Demo.upload "b.Docx"] Demo.fresh 1 (Demo.upload "b.Docx")).
  - split; [discriminate|]. split; [simpl; lia|]. repeat constructor.
  - reflexivity.
  - intros [|n] g Hn Hg; [|lia]. injection Hg as <-.
    exists (PyInt 8), (PyStr "strong match"). eexists _, _.
    repeat split; vm_compute; reflexivity.
  - vm_compute; reflexivity.
  - vm_compute; reflexivity.
  - vm_compute; reflexivity.
Defined.

Lemma check_file_types_first (pre post : list UploadFile.t) (f : UploadFile.t) :
  Forall (fun g => has_allowed_extension g = true) pre ->
  has_allowed_extension f = false ->
  check_file_types (pre ++ f :: post) = Raise (UnsupportedFileType (UploadFile.filename f)).
Proof.
  intros Hpre Hf. induction Hpre as [|g pre Hg _ IH]; simpl.
  - by rewrite Hf.
  - by rewrite Hg.
Qed.

(** X3: when a batch of 1 to 10 files holds files of other types, the
    400 names the first of them in submission order, later offenders are
    not reported, and the state is left as it was. *)
Theorem type_check_names_first_offender (E : Env) (jd : string)
    (pre post : list UploadFile.t) (f : UploadFile.t) (st : state) :
  (length (pre ++ f :: post) <= 10)%nat ->
  Forall (fun g => has_allowed_extension g = true) pre ->
  has_allowed_extension f = false ->
  analyze_resumes E jd (pre ++ f :: post) st
  = (Raise (UnsupportedFileType (UploadFile.filename f)), st).
Proof.
  intros Hlen Hpre Hf. unfold analyze_resumes.
  case_bool_decide as Hnil; [by destruct pre|].
  apply Nat.ltb_ge in Hlen. rewrite Hlen.
  unfold mbind at 1, M_bind at 1, lift at 1.
  by rewrite (check_file_types_first pre post f Hpre Hf).
Qed.

(** A resume, then two files of other types. *)
Lemma type_check_first_offender_witness :
  analyze_resumes (Demo.env [] []) "jd"
    ([Demo.upload "a.pdf"] ++ Demo.upload "b.exe" :: [Demo.upload "c.doc"]) Demo.fresh
  = (Raise (UnsupportedFileType (UploadFile.filename (Demo.upload "b.exe"))), Demo.fresh).
Proof.
  apply (type_check_names_first_offender (Demo.env [] []) "jd"
           [Demo.upload "a.pdf"] [Demo.upload "c.doc"] (Demo.upload "b.exe") Demo.fresh).
  - simpl; lia.
  - repeat constructor.
  - vm_compute; reflexivity.
Defined.

(** ** The three answers of the handler *)

(** X4: the handler answers 200, 400 or 500 and nothing else: 400 exactly
    when the batch fails a check of lines 236-248, 200 exactly when it
    passes them and every file goes through, 500 exactly when it passes
    them and some file fails. *)
Theorem handler_status_classification (E : Env) (jd : string)
    (files : list UploadFile.t) (st : state) :
  exists r st',
    analyze_resumes E jd files st = (r, st')
    /\ (http_status r = 200%nat \/ http_status r = 400%nat \/ http_status r = 500%nat)
    /\ (http_status r = 400%nat <-> ~ batch_valid files)
    /\ (http_status r = 200%nat <->
        batch_valid files
        /\ forall n g, files !! n = Some g -> exists s j, file_succeeds E jd n g s j)
    /\ (http_status r = 500%nat <->
        batch_valid files
        /\ exists n g e, files !! n = Some g /\ file_fails E jd n g e).
Proof.
  destruct (analyze_resumes E jd files st) as [r st'] eqn:Hrun.
  exists r, st'. split; [done|].
  destruct (batch_valid_dec files) as [Hvalid | Hinvalid].
  - destruct (process_files E jd 0 files [] (opened st)) as [r1 st1] eqn:Hloop.
    rewrite (analyze_resumes_accepts E jd files st r1 st1 Hvalid Hloop) in Hrun.
    apply process_files_run in Hloop
      as (k & rows & entries & tr & _ & _ & _ & _ & _ & Hfiles & Hend); [|done].
    simpl in Hfiles, Hend.
    destruct Hend as [(-> & -> & _) | (f & e & Hf & Hfail & -> & _)];
      injection Hrun as <- <-; simpl.
    + assert (forall n g, files !! n = Some g -> exists s j, file_succeeds E jd n g s j)
        as Hall.
      { intros n g Hg. apply lookup_lt_Some in Hg as Hlt.
        destruct (Hfiles n Hlt) as (g' & s & j & _ & Hg' & Hok & _).
        rewrite Hg in Hg'. injection Hg' as <-. eauto. }
      split; [by left|]. split; [split; [discriminate | done]|].
      split; [done|]. split; [discriminate|].
      intros (_ & n & g & e & Hg & Hfail). exfalso.
      destruct (Hall n g Hg) as (s & j & Hok). by eapply succeeds_not_fails.
    + split; [by right; right|]. split; [split; [discriminate | done]|].
      split; [|split; [intros _; split; [done | eauto] | done]].
      split; [discriminate|]. intros (_ & Hall). exfalso.
      destruct (Hall _ _ Hf) as (s & j & Hok). by eapply succeeds_not_fails.
  - assert (~ batch_valid files) as Hnot.
    { intros (Hnil & Hlen & Hall).
      destruct Hinvalid as [?|[?|(f & Hin & Hf)]]; [done | lia |].
      rewrite Forall_forall in Hall. specialize (Hall f Hin). congruence. }
    destruct (analyze_resumes_rejects E jd files st Hnot) as (detail & Heq).
    rewrite Heq in Hrun. injection Hrun as <- <-. simpl.
    split; [by right; left|]. split; [done|].
    split; (split; [discriminate | by intros (? & _)]).
Qed.

(** ** The order of the steps *)

Section steps.
Variable E : Env.
Variable jd : string.

Lemma process_file_fails_steps i f e st :
  file_fails E jd i f e ->
  exists pend m,
    (m = 1 \/ m = 2 \/ m = 4)%nat
    /\ process_file E jd i f st =
         (Raise e, {| table := table st; session := pend;
                      trace := trace st ++ file_steps i m |}).
Proof.
  intros Hf.
  unfold process_file, mbind, M_bind, emit, lift, db_add, db_commit, mret, M_ret; simpl.
  destruct Hf as [Hp | text Hp Ha | text a Hp Ha Hl | text a s j Hp Ha Hs Hj Hc].
  - rewrite Hp. exists (session st), 1%nat. split; [by left | done].
  - rewrite Hp, Ha. exists (session st), 2%nat.
    split; [by right; left | by rewrite <- !app_assoc].
  - rewrite Hp, Ha. exists (session st), 2%nat. split; [by right; left|].
    destruct Hl as [Hs | [[s Hs] Hj]].
    + by rewrite Hs, <- !app_assoc.
    + by rewrite Hs, Hj, <- !app_assoc.
  - rewrite Hp, Ha, Hs, Hj, Hc; simpl.
    exists (session st ++ [new_row jd f s j]), 4%nat.
    split; [by right; right | by rewrite <- !app_assoc].
Qed.

Lemma process_files_steps files : forall i results st r st',
  session st = [] ->
  process_files E jd i files results st = (r, st') ->
  exists k,
    length (table st') = (length (table st) + k)%nat
    /\ ((k = length files /\ (exists res, r = Return res) /\ session st' = []
         /\ trace st' = trace st ++ batch_steps i k)
        \/ ((k < length files)%nat
            /\ exists e m, r = Raise e /\ (m = 1 \/ m = 2 \/ m = 4)%nat
                 /\ trace st' = trace st ++ batch_steps i k ++ file_steps (i + k) m)).
Proof.
  induction files as [|f rest IH]; intros i results st r st' Hsess Hrun.
  - simpl in Hrun. injection Hrun as <- <-. exists 0%nat.
    split; [lia|]. left. simpl. rewrite app_nil_r. eauto.
  - simpl in Hrun. unfold mbind at 1, M_bind at 1 in Hrun.
    destruct (succeeds_or_fails E jd i f) as [(s & j & Hok) | (e & Hfail)].
    + rewrite (process_file_succeeds E jd i f s j st Hsess Hok) in Hrun.
      apply IH in Hrun as (k & Hlen & Hend); [|done].
      simpl in Hlen, Hend. rewrite length_app in Hlen. simpl in Hlen.
      exists (S k). split; [lia|].
      destruct Hend as [(-> & Hres & Hs' & Htr) | (Hlt & e & m & -> & Hm & Htr)].
      * left. do 3 (split; [done|]). rewrite Htr. simpl. by rewrite <- app_assoc.
      * right. split; [simpl; lia|]. exists e, m. do 2 (split; [done|]).
        rewrite Htr. simpl. replace (i + S k)%nat with (S (i + k)) by lia.
        by rewrite <- !app_assoc.
    + destruct (process_file_fails_steps i f e st Hfail) as (pend & m & Hm & Heq).
      rewrite Heq in Hrun. injection Hrun as <- <-. exists 0%nat. simpl.
      split; [lia|]. right. split; [lia|]. exists e, m.
      by rewrite Nat.add_0_r.
Qed.

Lemma process_files_cons i f rest results st :
  process_files E jd i (f :: rest) results st =
    match process_file E jd i f st with
    | (Return entry, st') => process_files E jd (S i) rest (results ++ [entry]) st'
    | (Raise e, st') => (Raise e, st')
    end.
Proof. reflexivity. Qed.

(** Once a file has stopped the loop, the files after it play no part. *)
Lemma process_files_stops pre : forall i results st f e post,
  session st = [] ->
  (forall n g, pre !! n = Some g -> exists s j, file_succeeds E jd (i + n) g s j) ->
  file_fails E jd (i + length pre) f e ->
  process_files E jd i (pre ++ f :: post) results st
  = process_files E jd i (pre ++ [f]) results st.
Proof.
  induction pre as [|g pre IH]; intros i results st f e post Hsess Hpre Hfail.
  - simpl in Hfail. rewrite Nat.add_0_r in Hfail.
    rewrite !app_nil_l, !process_files_cons.
    destruct (process_file_fails E jd i f e st Hfail) as (pend & tr & Heq & _).
    by rewrite Heq.
  - rewrite <- !app_comm_cons, !process_files_cons.
    destruct (Hpre 0%nat g eq_refl) as (s & j & Hok). rewrite Nat.add_0_r in Hok.
    rewrite (process_file_succeeds E jd i g s j st Hsess Hok).
    apply (IH (S i) _ _ f e post); [done | |].
    + intros n g' Hg'. replace (S i + n)%nat with (i + S n)%nat by lia.
      by apply Hpre.
    + by replace (S i + length pre)%nat with (i + length (g :: pre))%nat by (simpl; lia).
Qed.

End steps.

(** X5: a request that passes the checks works through the files strictly
    in order and makes each step at most once per file: the trace is the
    four steps (extraction, scoring, add, commit) of each of the [k] files
    that went through, then, when a file failed, the first one, two or all
    four steps of that file followed by the rollback, and in every case the
    close of the session as the last step; an add is never left without
    its commit attempt, the table has grown by [k] rows and nothing is
    left pending. *)
Theorem request_steps_in_order (E : Env) (jd : string)
    (files : list UploadFile.t) (st : state) :
  batch_valid files ->
  exists r st' k,
    analyze_resumes E jd files st = (r, st')
    /\ session st' = []
    /\ length (table st') = (length (table st) + k)%nat
    /\ ((k = length files /\ http_status r = 200%nat
         /\ trace st' = trace st ++ batch_steps 0 k ++ [EvClose])
        \/ ((k < length files)%nat /\ http_status r = 500%nat
            /\ exists m, (m = 1 \/ m = 2 \/ m = 4)%nat
                 /\ trace st' = trace st ++ batch_steps 0 k ++ file_steps k m
                                ++ [EvRollback; EvClose])).
Proof.
  intros Hvalid.
  destruct (process_files E jd 0 files [] (opened st)) as [r1 st1] eqn:Hloop.
  rewrite (analyze_resumes_accepts E jd files st r1 st1 Hvalid Hloop).
  apply process_files_steps in Hloop as (k & Hlen & Hend); [|done].
  simpl in Hlen, Hend.
  destruct Hend as [(-> & (res & ->) & _ & Htr) | (Hlt & e & m & -> & Hm & Htr)].
  - eexists _, _, (length files). split; [done|]. simpl.
    do 2 (split; [done|]). left. do 2 (split; [done|]).
    by rewrite Htr, <- app_assoc.
  - eexists _, _, k. split; [done|]. simpl.
    do 2 (split; [done|]). right. do 2 (split; [done|]).
    exists m. split; [done|]. by rewrite Htr, <- !app_assoc.
Qed.

(** Three files, the service is unreachable for the second. *)
Lemma request_steps_witness :
  exists r st' k,
    analyze_resumes
      (Demo.env [Demo.says "good"; Demo.unreachable; Demo.says "good"] []) "jd"
      [Demo.upload "a.txt"; Demo.upload "b.pdf"; Demo.upload "c.docx"] Demo.fresh = (r, st')
    /\ session st' = []
    /\ length (table st') = (length (table Demo.fresh) + k)%nat
    /\ ((k = length [Demo.upload "a.txt"; Demo.upload "b.pdf"; Demo.upload "c.docx"]
         /\ http_status r = 200%nat
         /\ trace st' = trace Demo.fresh ++ batch_steps 0 k ++ [EvClose])
        \/ ((k < length [Demo.upload "a.txt"; Demo.upload "b.pdf"; Demo.upload "c.docx"])%nat
            /\ http_status r = 500%nat
            /\ exists m, (m = 1 \/ m = 2 \/ m = 4)%nat
                 /\ trace st' = trace Demo.fresh ++ batch_steps 0 k ++ file_steps k m
                                ++ [EvRollback; EvClose])).
Proof.
  apply (request_steps_in_order
           (Demo.env [Demo.says "good"; Demo.unreachable; Demo.says "good"] []) "jd"
           [Demo.upload "a.txt"; Demo.upload "b.pdf"; Demo.upload "c.docx"] Demo.fresh).
  split; [discriminate|]. split; [simpl; lia|]. repeat constructor.
Defined.

(** X6: what the handler does with a batch in which a file fails does not
    depend on the files after that file: with the same files up to and
    including the failing one, any two batches that pass the checks get
    the same answer and leave the same state. *)
Theorem files_after_failure_play_no_part (E : Env) (jd : string)
    (pre post post' : list UploadFile.t) (f : UploadFile.t) (e : exn) (st : state) :
  batch_valid (pre ++ f :: post) ->
  batch_valid (pre ++ f :: post') ->
  (forall n g, pre !! n = Some g -> exists s j, file_succeeds E jd n g s j) ->
  file_fails E jd (length pre) f e ->
  analyze_resumes E jd (pre ++ f :: post) st = analyze_resumes E jd (pre ++ f :: post') st.
Proof.
  intros Hvalid Hvalid' Hpre Hfail.
  destruct (process_files E jd 0 (pre ++ [f]) [] (opened st)) as [r1 st1] eqn:Hloop.
  rewrite (analyze_resumes_accepts E jd (pre ++ f :: post) st r1 st1 Hvalid).
  2:{ by rewrite (process_files_stops E jd pre 0 [] (opened st) f e post). }
  rewrite (analyze_resumes_accepts E jd (pre ++ f :: post') st r1 st1 Hvalid').
  2:{ by rewrite (process_files_stops E jd pre 0 [] (opened st) f e post'). }
  done.
Qed.

(** After a file the service cannot score, one more file or three. *)
Lemma files_after_failure_witness :
  analyze_resumes (Demo.env [Demo.says "good"; Demo.unreachable] []) "jd"
    ([Demo.upload "a.txt"] ++ Demo.upload "b.pdf" :: [Demo.upload "c.docx"]) Demo.fresh
  = analyze_resumes (Demo.env [Demo.says "good"; Demo.unreachable] []) "jd"
      ([Demo.upload "a.txt"] ++ Demo.upload "b.pdf"
         :: [Demo.upload "x.txt"; Demo.upload "y.txt"; Demo.upload "z.pdf"]) Demo.fresh.
Proof.
  apply (files_after_failure_play_no_part
           (Demo.env [Demo.says "good"; Demo.unreachable] []) "jd"
           [Demo.upload "a.txt"] [Demo.upload "c.docx"]
           [Demo.upload "x.txt"; Demo.upload "y.txt"; Demo.upload "z.pdf"]
           (Demo.upload "b.pdf") (HTTPException 500 "Error analyzing resume: 503")).
  - split; [discriminate|]. split; [simpl; lia|]. repeat constructor.
  - split; [discriminate|]. split; [simpl; lia|]. repeat constructor.
  - intros [|n] g Hg; [|discriminate]. injection Hg as <-.
    exists (PyInt 8), (PyStr "strong match"). eexists _, _.
    repeat split; vm_compute; reflexivity.
  - eapply scoring_fails; vm_compute; reflexivity.
Defined.

(** ** Fenced responses *)

Section fences.
Implicit Types s x w b : string.

Lemma str_app_assoc s1 s2 s3 : (s1 +:+ s2) +:+ s3 = s1 +:+ s2 +:+ s3.
Proof. apply chars_inj. by rewrite !chars_app, app_assoc. Qed.

Lemma str_app_nil_r s : s +:+ EmptyString = s.
Proof. apply chars_inj. by rewrite chars_app, app_nil_r. Qed.

Lemma lstrip_app_blank w s : blank (Some w) -> lstrip (w +:+ s) = lstrip s.
Proof.
  simpl. induction w as [|c w IH]; simpl; [done|].
  inversion 1 as [|? ? Hc Hw]. rewrite Hc. by apply IH.
Qed.

Lemma rstrip_app_blank x w : blank (Some w) -> rstrip (x +:+ w) = rstrip x.
Proof.
  intros Hw. induction x as [|c x IH]; simpl.
  - by apply rstrip_empty.
  - by rewrite IH.
Qed.

Lemma strip_app_blank_r s w : blank (Some w) -> strip (s +:+ w) = strip s.
Proof.
  intros Hw. unfold strip. induction s as [|c s IH].
  - simpl. apply rstrip_empty, lstrip_blank. exact Hw.
  - change (String c s +:+ w) with (String c (s +:+ w)).
    change (lstrip (String c (s +:+ w)))
      with (if isspace c then lstrip (s +:+ w) else String c (s +:+ w)).
    change (lstrip (String c s)) with (if isspace c then lstrip s else String c s).
    destruct (isspace c); [exact IH|].
    exact (rstrip_app_blank (String c s) w Hw).
Qed.

(** White space around a text does not change what [strip] leaves. *)
Lemma strip_app_blank w1 s w2 :
  blank (Some w1) -> blank (Some w2) -> strip (w1 +:+ s +:+ w2) = strip s.
Proof.
  intros H1 H2. rewrite <- str_app_assoc, (strip_app_blank_r _ _ H2).
  unfold strip. by rewrite (lstrip_app_blank _ _ H1).
Qed.

Lemma rstrip_app_fence x : rstrip (x +:+ fence) = x +:+ fence.
Proof.
  induction x as [|c x IH]; [reflexivity|].
  change (rstrip (String c (x +:+ fence))
          = String c (x +:+ fence)).
  simpl. rewrite IH. by destruct x.
Qed.

Lemma without_prefix_app marker rest :
  without_prefix marker (marker +:+ rest) = Some rest.
Proof.
  unfold without_prefix. rewrite chars_app, decide_True by (by eexists).
  by rewrite drop_app_length, string_of_list_ascii_of_string.
Qed.

Lemma without_suffix_app marker front :
  without_suffix marker (front +:+ marker) = Some front.
Proof.
  unfold without_suffix. rewrite chars_app, decide_True by (by eexists).
  rewrite length_app.
  replace (length (chars front) + length (chars marker) - length (chars marker))%nat
    with (length (chars front)) by lia.
  by rewrite take_app_length, string_of_list_ascii_of_string.
Qed.

Lemma without_prefix_None marker s :
  startswith s marker = false -> without_prefix marker s = None.
Proof.
  intros Hs. unfold without_prefix. case_decide as Hp; [|done].
  apply startswith_prefix in Hp. congruence.
Qed.

(** The text between an opening fence line and a closing fence line. *)
Lemma clean_response_fenced_json w1 b w2 :
  blank (Some w1) -> blank (Some w2) ->
  clean_response (w1 +:+ (fence_json +:+ nl +:+ b +:+ nl +:+ fence) +:+ w2) = strip b.
Proof.
  intros H1 H2. rewrite clean_response_sequential. cbv zeta.
  rewrite (strip_app_blank _ _ _ H1 H2).
  assert (strip (fence_json +:+ nl +:+ b +:+ nl +:+ fence)
          = fence_json +:+ nl +:+ b +:+ nl +:+ fence) as ->.
  { unfold strip. change (lstrip (fence_json +:+ nl +:+ b +:+ nl +:+ fence))
      with (fence_json +:+ nl +:+ b +:+ nl +:+ fence).
    rewrite <- !str_app_assoc. by rewrite rstrip_app_fence. }
  rewrite without_prefix_app. unfold default; cbn [from_option id].
  rewrite (without_prefix_None fence (nl +:+ b +:+ nl +:+ fence)) by reflexivity.
  unfold default; cbn [from_option id].
  rewrite <- !str_app_assoc, without_suffix_app. unfold default; cbn [from_option id].
  rewrite str_app_assoc. apply strip_app_blank; simpl; by repeat constructor.
Qed.

Lemma clean_response_fenced_plain w1 b w2 :
  blank (Some w1) -> blank (Some w2) ->
  clean_response (w1 +:+ (fence +:+ nl +:+ b +:+ nl +:+ fence) +:+ w2) = strip b.
Proof.
  intros H1 H2. rewrite clean_response_sequential. cbv zeta.
  rewrite (strip_app_blank _ _ _ H1 H2).
  assert (strip (fence +:+ nl +:+ b +:+ nl +:+ fence)
          = fence +:+ nl +:+ b +:+ nl +:+ fence) as ->.
  { unfold strip. change (lstrip (fence +:+ nl +:+ b +:+ nl +:+ fence))
      with (fence +:+ nl +:+ b +:+ nl +:+ fence).
    rewrite <- !str_app_assoc. by rewrite rstrip_app_fence. }
  rewrite (without_prefix_None fence_json (fence +:+ nl +:+ b +:+ nl +:+ fence))
    by reflexivity.
  unfold default; cbn [from_option id]. rewrite without_prefix_app. unfold default; cbn [from_option id].
  rewrite <- !str_app_assoc, without_suffix_app. unfold default; cbn [from_option id].
  rewrite str_app_assoc. apply strip_app_blank; simpl; by repeat constructor.
Qed.

Lemma fenced_not_blank w1 marker rest :
  startswith marker fence = true -> ~ blank (Some (w1 +:+ marker +:+ rest)).
Proof.
  intros Hm Hb. simpl in Hb. rewrite !chars_app in Hb.
  apply Forall_app in Hb as [_ Hb]. apply Forall_app in Hb as [Hb _].
  apply startswith_prefix in Hm as [k Hk]. rewrite Hk in Hb.
  simpl in Hb. inversion Hb as [|? ? Hc _]. vm_compute in Hc. discriminate.
Qed.

Lemma parse_response_not_blank (E : Env) (r : string) :
  ~ blank (Some r) ->
  parse_response E {| text := Return (Some r) |} = json_loads E (clean_response r).
Proof.
  intros Hr%is_empty_response_not_blank.
  unfold parse_response. cbn [text]. rewrite bind_Return. by rewrite Hr.
Qed.

End fences.

(** X7: a response made of an opening fence line (with or without the
    word [json]), a body, and a closing fence line, with any white space
    before and after, is parsed exactly as its body trimmed: what reaches
    [json.loads] is [b.strip()], whatever the body [b] is. *)
Theorem fenced_response_parses_as_body (E : Env) (w1 b w2 : string) :
  blank (Some w1) -> blank (Some w2) ->
  parse_response E
    {| text := Return (Some (w1 +:+ (fence_json +:+ nl +:+ b +:+ nl +:+ fence) +:+ w2)) |}
  = json_loads E (strip b)
  /\ parse_response E
       {| text := Return (Some (w1 +:+ (fence +:+ nl +:+ b +:+ nl +:+ fence) +:+ w2)) |}
     = json_loads E (strip b).
Proof.
  intros H1 H2. split.
  - rewrite parse_response_not_blank
      by (apply (fenced_not_blank w1 fence_json); reflexivity).
    by rewrite clean_response_fenced_json.
  - rewrite parse_response_not_blank
      by (apply (fenced_not_blank w1 fence); reflexivity).
    by rewrite clean_response_fenced_plain.
Qed.

(** A fenced object with a line feed after the closing fence. *)
Lemma fenced_response_witness :
  parse_response (Demo.env [] [])
    {| text := Return (Some (EmptyString
                               +:+ (fence_json +:+ nl +:+ "good" +:+ nl +:+ fence) +:+ nl)) |}
  = json_loads (Demo.env [] []) (strip "good")
  /\ parse_response (Demo.env [] [])
       {| text := Return (Some (EmptyString
                                  +:+ (fence +:+ nl +:+ "good" +:+ nl +:+ fence) +:+ nl)) |}
     = json_loads (Demo.env [] []) (strip "good").
Proof.
  apply (fenced_response_parses_as_body (Demo.env [] []) EmptyString "good" nl).
  - simpl. constructor.
  - simpl. repeat constructor.
Defined.

(** ** The prompt *)

(** X8: the f-string of lines 157-173 embeds the two texts as they are,
    so the boundary between them can be forged: a job description that
    contains the separator lines gives the same prompt as a shorter job
    description with the rest moved to the front of the resume.  Two
    different pairs of texts are then the same request to the model. *)
Theorem prompt_boundary_can_be_forged (a b c : string) :
  build_prompt c (a +:+ prompt_separator +:+ b)
  = build_prompt (b +:+ prompt_separator +:+ c) a
  /\ a +:+ prompt_separator +:+ b <> a.
Proof.
  split.
  - unfold build_prompt, prompt_separator. apply chars_inj.
    rewrite !chars_app. by rewrite <- !app_assoc.
  - intros H. apply (f_equal String.length) in H.
    rewrite <- !chars_length, !chars_app, !length_app in H.
    unfold prompt_separator in H. simpl in H. lia.
Qed.

(** ** What leaves the scoring client *)


(** ** The text of a document *)

Section documents.

Lemma join_lines_app (xs ys : list string) :
  join_lines (xs ++ ys) = join_lines xs +:+ join_lines ys.
Proof.
  induction xs as [|x xs IH]; simpl; [done|].
  rewrite IH. apply chars_inj. rewrite !chars_app. by rewrite <- !app_assoc.
Qed.

Lemma join_lines_length (xs : list string) :
  String.length (join_lines xs) = (sum_list (String.length <$> xs) + length xs)%nat.
Proof.
  induction xs as [|x xs IH]; simpl; [done|].
  rewrite <- !chars_length, !chars_app, !length_app, !chars_length, IH. simpl.
  unfold fmap. lia.
Qed.

Lemma join_lines_ends (xs : list string) :
  xs <> [] -> endswith (join_lines xs) nl = true.
Proof.
  intros Hne. apply endswith_suffix.
  destruct (exists_last (l := xs)) as (front & x & ->).
  { intros ->. done. }
  rewrite join_lines_app. simpl. exists (chars (join_lines front) ++ chars x).
  rewrite !chars_app. simpl. by rewrite <- app_assoc.
Qed.

(** The part at position [k] stands between what the parts before it
    give and its own line feed. *)
Lemma join_lines_lookup (xs : list string) (k : nat) (x : string) :
  xs !! k = Some x ->
  join_lines xs
  = join_lines (take k xs) +:+ x +:+ nl +:+ join_lines (drop (S k) xs).
Proof.
  intros Hk. rewrite <- (take_drop_middle xs k x Hk) at 1.
  by rewrite join_lines_app.
Qed.

Lemma join_lines_offset (xs : list string) (k : nat) (x : string) :
  xs !! k = Some x ->
  String.length (join_lines (take k xs))
  = (sum_list (String.length <$> take k xs) + k)%nat.
Proof.
  intros Hk%lookup_lt_Some. rewrite join_lines_length, length_take. lia.
Qed.

End documents.

(** X10: for a PDF or a DOCX the extractor returns the texts of the pages
    (paragraphs) in order, each followed by one line feed and nothing else
    added: the part at position [k] stands in the result right after the
    parts before it and their line feeds, and is followed by a line feed;
    the length of the result is the sum of the lengths plus the number of
    parts; a document with no part gives the empty text and no error; any
    other document gives a text that ends with a line feed. *)
Theorem document_text_assembly (E : Env) (f : UploadFile.t) (parts : list string) :
  (endswith (UploadFile.filename f) ".pdf" = true
   /\ pdf_pages E (UploadFile.content f) = Return parts)
  \/ (endswith (UploadFile.filename f) ".pdf" = false
      /\ endswith (UploadFile.filename f) ".docx" = true
      /\ docx_paragraphs E (UploadFile.content f) = Return parts) ->
  exists resume_text,
    parse_resume_file E f = Return resume_text
    /\ (forall k part, parts !! k = Some part ->
          String.substring (sum_list (String.length <$> take k parts) + k)
            (String.length part) resume_text = part
          /\ chars resume_text
               !! (sum_list (String.length <$> take k parts) + k + String.length part)%nat
             = Some (ascii_of_nat 10))
    /\ String.length resume_text = (sum_list (String.length <$> parts) + length parts)%nat
    /\ (parts = [] -> resume_text = EmptyString)
    /\ (parts <> [] -> endswith resume_text nl = true).
Proof.
  intros H. exists (join_lines parts). split.
  - unfold parse_resume_file.
    destruct H as [(Hpdf & Hpages) | (Hpdf & Hdocx & Hpars)].
    + by rewrite Hpdf, Hpages.
    + by rewrite Hpdf, Hdocx, Hpars.
  - split; [|split; [apply join_lines_length|
                     split; [by intros -> | apply join_lines_ends]]].
    intros k part Hk.
    rewrite <- (join_lines_offset parts k part Hk).
    rewrite (join_lines_lookup parts k part Hk).
    rewrite <- !chars_length. split.
    + apply chars_inj.
      rewrite chars_substring, !chars_app, drop_app_length.
      by rewrite take_app_length.
    + rewrite !chars_app.
      rewrite lookup_app_r by lia.
      replace (length (chars (join_lines (take k parts))) + length (chars part)
               - length (chars (join_lines (take k parts))))%nat
        with (length (chars part)) by lia.
      rewrite lookup_app_r by lia.
      by replace (length (chars part) - length (chars part))%nat with 0%nat by lia.
Qed.

(** A PDF of two pages. *)
Lemma document_text_witness :
  exists resume_text,
    parse_resume_file (Demo.env [] []) (Demo.upload "cv.pdf") = Return resume_text
    /\ (forall k part, ["page one"; "page two"] !! k = Some part ->
          String.substring
            (sum_list (String.length <$> take k ["page one"; "page two"]) + k)
            (String.length part) resume_text = part
          /\ chars resume_text
               !! (sum_list (String.length <$> take k ["page one"; "page two"]) + k
                   + String.length part)%nat
             = Some (ascii_of_nat 10))
    /\ String.length resume_text
       = (sum_list (String.length <$> ["page one"; "page two"])
          + length ["page one"; "page two"])%nat
    /\ (["page one"; "page two"] = [] -> resume_text = EmptyString)
    /\ (["page one"; "page two"] <> [] -> endswith resume_text nl = true).
Proof.
  apply (document_text_assembly (Demo.env [] []) (Demo.upload "cv.pdf")
           ["page one"; "page two"]).
  left. split; vm_compute; reflexivity.
Defined.

(** ** The cleaned text is part of the response *)

Section parts.
Implicit Types s a b c : string.

Lemma part_of_refl s : part_of s s.
Proof. exists EmptyString, EmptyString. by rewrite str_app_nil_r. Qed.

Lemma part_of_trans a b c : part_of a b -> part_of b c -> part_of a c.
Proof.
  intros (p1 & q1 & ->) (p2 & q2 & ->).
  exists (p2 +:+ p1), (q1 +:+ q2). apply chars_inj.
  rewrite !chars_app. by rewrite <- !app_assoc.
Qed.

Lemma lstrip_part s : part_of (lstrip s) s.
Proof.
  induction s as [|c s IH]; simpl; [apply part_of_refl|].
  destruct (isspace c); [|apply part_of_refl].
  destruct IH as (p & q & Hs). exists (String c p), q.
  change (String c s = String c (p +:+ lstrip s +:+ q)). by f_equal.
Qed.

Lemma rstrip_prefix s : exists q, s = rstrip s +:+ q.
Proof.
  induction s as [|c s IH]; [by exists EmptyString|].
  destruct IH as (q & Hq). simpl.
  destruct (rstrip s) as [|c' r] eqn:Hr.
  - destruct (isspace c); [by exists (String c s) | by exists s].
  - exists q. change (String c s = String c (String c' r +:+ q)).
    f_equal. exact Hq.
Qed.

Lemma rstrip_part s : part_of (rstrip s) s.
Proof. destruct (rstrip_prefix s) as (q & Hq). by exists EmptyString, q. Qed.

Lemma strip_part s : part_of (strip s) s.
Proof. unfold strip. eapply part_of_trans; [apply rstrip_part | apply lstrip_part]. Qed.

Lemma without_prefix_part marker s : part_of (default s (without_prefix marker s)) s.
Proof.
  unfold without_prefix. case_decide as Hp; [|apply part_of_refl]. simpl.
  destruct Hp as [k Hk]. exists marker, EmptyString. apply chars_inj.
  by rewrite !chars_app, list_ascii_of_string_of_list_ascii, Hk, drop_app_length, app_nil_r.
Qed.

Lemma without_suffix_part marker s : part_of (default s (without_suffix marker s)) s.
Proof.
  unfold without_suffix. case_decide as Hp; [|apply part_of_refl]. simpl.
  destruct Hp as [k Hk]. exists EmptyString, marker. apply chars_inj.
  rewrite !chars_app, list_ascii_of_string_of_list_ascii, Hk, length_app. simpl.
  replace (length k + length (chars marker) - length (chars marker))%nat
    with (length k) by lia.
  by rewrite take_app_length.
Qed.

End parts.

(** X11: the post-processing only removes: the text handed to
    [json.loads] is a run of consecutive characters of the response, so
    nothing is inserted, replaced or reordered, and it is never longer
    than the response. *)
Theorem clean_response_part_of_response (s : string) :
  part_of (clean_response s) s
  /\ (String.length (clean_response s) <= String.length s)%nat.
Proof.
  assert (part_of (clean_response s) s) as Hpart.
  { rewrite clean_response_sequential. cbv zeta.
    eapply part_of_trans; [apply strip_part|].
    eapply part_of_trans; [apply without_suffix_part|].
    eapply part_of_trans; [apply without_prefix_part|].
    eapply part_of_trans; [apply without_prefix_part|].
    apply strip_part. }
  split; [done|]. destruct Hpart as (p & q & Hs).
  rewrite Hs at 2. rewrite <- !chars_length, !chars_app, !length_app. lia.
Qed.
